(** * Resilient cleanup in the ApostropheCMS SDK smoke tests

    A shallow embedding of the two cleanup helpers of the test scripts,
    [safeDeleteDocument] (media-api-tests.js) and [safeDeletePage]
    (authorization-api-tests.js), together with the cleanup loop of
    [runMediaTests], and the properties the specification states about
    the "resource lifecycle resolver" they implement.

    JavaScript is embedded as follows.
    - Strings are [string]; the only string methods the helpers use are
      [String.prototype.replace] with a string pattern (first occurrence
      only), [split(sep)[0]] and [includes].
    - [async] functions are computations in a monad [M] that threads a
      [World] (the remote store, the list of API invocations made so far,
      the console) and ends in a completion record: normal, [return v]
      or [throw e].  [try]/[catch], [for ... of] and the function boundary
      are combinators on completions.
    - The generated client is a record of methods; a method is a function
      from an identifier and the store to a response (resolved with a
      status, or rejected with an error) and the next store. *)

From Stdlib Require Import String Ascii List ZArith Bool Lia.
Import ListNotations.
Local Open Scope string_scope.
Local Open Scope list_scope.

(** ** JavaScript values and string methods *)

Module Js.

(** The values an identifier variable of the scripts can hold: ids are
    read from JSON fields ([data._id], [data.aposDocId]) that are strings
    when present, and the script variables start as [null]. *)
Inductive value : Type :=
| VUndefined
| VNull
| VStr (s : string).

(** ToBoolean: [undefined], [null] and the empty string are falsy. *)
Definition truthy (v : value) : bool :=
  match v with
  | VStr s => negb (s =? EmptyString)
  | VUndefined | VNull => false
  end.

(** [a || b] *)
Definition or (a b : value) : value := if truthy a then a else b.

(** The string left after its first [n] characters. *)
Fixpoint drop (n : nat) (s : string) : string :=
  match n, s with
  | O, _ => s
  | S _, EmptyString => EmptyString
  | S n', String _ s' => drop n' s'
  end.

(** [s.includes(pat)] *)
Fixpoint includes (pat s : string) : bool :=
  if prefix pat s then true
  else match s with
       | EmptyString => false
       | String _ s' => includes pat s'
       end.

(** [s.replace(pat, rep)] for a string pattern: only the first
    occurrence is replaced ([rep] holds no [$] pattern here). *)
Fixpoint replace (pat rep s : string) : string :=
  if prefix pat s then rep ++ drop (String.length pat) s
  else match s with
       | EmptyString => EmptyString
       | String c s' => String c (replace pat rep s')
       end.

(** [s.split(sep)[0]] for a one-character separator: the part of [s]
    before the first [sep], all of [s] when there is none. *)
Fixpoint split0 (sep : ascii) (s : string) : string :=
  match s with
  | EmptyString => EmptyString
  | String c s' => if Ascii.eqb c sep then EmptyString
                   else String c (split0 sep s')
  end.

(** [new Set(...)]: a set keeps its elements in insertion order, and
    adding an element it already has changes nothing. *)
Definition Set_has (s : list string) (x : string) : bool :=
  existsb (String.eqb x) s.

Definition Set_add (s : list string) (x : string) : list string :=
  if Set_has s x then s else s ++ [x].

(** [[...new Set(array)]] *)
Definition Set_of (array : list string) : list string :=
  fold_left Set_add array [].

End Js.

(** The two literals of the id rewriting. *)
Definition published_marker : string := ":en:published".
Definition draft_marker : string := ":en:draft".

(** media-api-tests.js, line 89:
    [[itemId, itemId.replace(':en:published', ':en:draft'),
      itemId.split(':')[0]]] *)
Definition tryIds (itemId : string) : list string :=
  [ itemId;
    Js.replace published_marker draft_marker itemId;
    Js.split0 ":"%char itemId ].

(** line 90: the ids the loop runs over, [[...new Set(tryIds)]]. *)
Definition candidates (itemId : string) : list string :=
  Js.Set_of (tryIds itemId).

(** ** The generated client: responses and errors *)

(** [error.response] of a rejected request. *)
Record HttpResponse : Type := { status : Z; statusText : string }.

(** What a rejected request throws: an [Error] whose [response] is set
    when the server answered. *)
Record Error : Type := { message : string; response : option HttpResponse }.

(** [e.response?.status] *)
Definition response_status (e : Error) : option Z :=
  option_map status (response e).

(** [e.response?.status === code] *)
Definition status_is (e : Error) (code : Z) : bool :=
  match response_status e with
  | Some z => (z =? code)%Z
  | None => false
  end.

(** What a template literal prints for [e.response?.status || alt]: the
    status when it is there and not zero, the alternative otherwise. *)
Inductive Printed : Type :=
| PNum (z : Z)
| PStr (s : string).

Definition status_or (e : Error) (alt : string) : Printed :=
  match response_status e with
  | Some z => if (z =? 0)%Z then PStr alt else PNum z
  | None => PStr alt
  end.

(** A settled request promise: resolved with [{ status, data }] or
    rejected with an error. *)
Inductive Settled (D : Type) : Type :=
| Resolved (st : Z) (data : D)
| Rejected (e : Error).
Arguments Resolved {D} st data.
Arguments Rejected {D} e.

(** [response.data] where a script reads fields of it: a value of the
    shape [A] whose fields can be read, or nothing, that is [undefined]
    or [null], on which reading a field throws. *)
Inductive Nullish : Type := Undefined | Null.

Inductive Data (A : Type) : Type :=
| Missing (n : Nullish)
| Object (a : A).
Arguments Missing {A} n.
Arguments Object {A} a.

(** The object, when there is one. *)
Definition object_of {A : Type} (data : Data A) : option A :=
  match data with
  | Object a => Some a
  | Missing _ => None
  end.

(** [it.type] of the media script's created items. *)
Inductive Kind : Type := image | file | imageTag | fileTag.

(** [data] of [pageGetById], as far as [safeDeletePage] reads it: a
    value whose two fields hold whatever the server sent, [undefined]
    for a field that is not there, and which [if (actualPageData)]
    finds truthy or not.  An object is truthy; the empty string of an
    empty body is not, and reads [undefined] for both fields. *)
Record PageData : Type := {
  page_truthy : bool;
  page_aposDocId : Js.value;
  page_id : Js.value
}.

(** ** The console *)

(** First argument of [logTest]: [`Delete ${kind}`] or
    [`Delete ${pageName}`]. *)
Inductive TestName : Type :=
| DeleteKind (kind : Kind)
| DeleteNamed (pageName : string).

(** Third argument of [logTest]. *)
Inductive Details : Type :=
| IdIs (id : string)                       (* `id=${id}` *)
| AlreadyGone (id : string)                (* `already gone (${id})` *)
| ErrorMessage (m : string)                (* e.message *)
| SuccessfullyDeleted (id : Js.value)
| DeleteFailedWithStatus (st : Z)
| SuccessfullyDeletedDraft (id : string)
| SuccessfullyDeletedBase (id : string)
| AllAttemptsFailed (pageId : string).

(** [if (details)]: a template with fixed text is never empty. *)
Definition details_truthy (d : Details) : bool :=
  match d with
  | ErrorMessage m => negb (m =? EmptyString)
  | _ => true
  end.

(** One constructor per [console.log] of the modelled code, with the
    values it interpolates. *)
Inductive Line : Type :=
| TestLine (name : TestName) (ok : bool)       (* logTest, status line *)
| DetailsLine (d : Details)                    (* logTest, details line *)
  (* safeDeleteDocument *)
| Unpublished (kind : Kind)
| NotPublished
| UnpublishFailed (st : Printed)
| DeleteAttemptFailed (id : string) (why : Printed)
| MayBeProtected (kind : Kind)
  (* safeDeletePage *)
| Attempting (pageName pageId : string)
| PageInfo (aposDocId _id : Js.value)
| CouldNotRetrieve (m : string)
| Unpublishing (pageName : string)
| UnpublishSuccessful (st : Z)
| UnpublishFailedOrNotNeeded (m : string)
| UsingAposDocId (deleteId : Js.value)
| UsingBaseId (deleteId : string)
| Deleting (pageName : string) (deleteId : Js.value)
| FirstDeleteAttemptFailed (m : string)
| TryingDraftId (draftId : string)
| DraftIdAlsoFailed (m : string)
| TryingBaseId (baseId : string)
| BaseIdAlsoFailed (m : string)
| ManualCleanupHint
| HttpStatusLine (st : Z)
| ErrorDetailsLine (text : string).

(** ** Instrumentation: which client method was invoked on which id *)

Inductive Verb : Type := GetById | Unpublish | Delete.

(** A call: the method and the value it was given as the id.  The
    helpers pass strings but for one place: the first delete of
    [safeDeletePage] passes [actualPageData.aposDocId] as it is. *)
Definition Call : Type := (Verb * Js.value)%type.

(** The call of a method on a string id. *)
Definition on (v : Verb) (id : string) : Call := (v, Js.VStr id).

Definition is_delete (c : Call) : bool :=
  match fst c with Delete => true | _ => false end.

Definition is_unpublish (c : Call) : bool :=
  match fst c with Unpublish => true | _ => false end.

(** The ids [Delete] (resp. [Unpublish]) was invoked on, in call order. *)
Definition deletes (cs : list Call) : list Js.value :=
  map snd (filter is_delete cs).

Definition unpublishes (cs : list Call) : list Js.value :=
  map snd (filter is_unpublish cs).

(** ** Completions *)

(** How a block of statements ends: it runs to its end, it executes
    [return v], or it throws. *)
Inductive Completion (A : Type) : Type :=
| Normal (a : A)
| Return (v : bool)
| Throw (e : Error).
Arguments Normal {A} a.
Arguments Return {A} v.
Arguments Throw {A} e.

(** What the [TypeError] of reading [aposDocId] on a missing [data]
    looks like to a handler: a message that names what was there
    instead, and no [response]. *)
Definition TypeError (n : Nullish) : Error :=
  {| message :=
       match n with
       | Undefined =>
           "Cannot read properties of undefined (reading 'aposDocId')"
       | Null =>
           "Cannot read properties of null (reading 'aposDocId')"
       end;
     response := None |}.

Section Embedding.

(** The state of the remote CMS; the scripts never look inside. *)
Context {Store : Type}.

Record World : Type := mkWorld {
  store : Store;
  calls : list Call;
  console : list Line
}.

Definition M (A : Type) : Type := World -> Completion A * World.

Definition ret {A} (a : A) : M A := fun w => (Normal a, w).

Definition bind {A B} (m : M A) (k : A -> M B) : M B :=
  fun w =>
    match m w with
    | (Normal a, w') => k a w'
    | (Return v, w') => (Return v, w')
    | (Throw e, w') => (Throw e, w')
    end.

(** [return v;] *)
Definition return_ {A} (v : bool) : M A := fun w => (Return v, w).

(** [throw e;] *)
Definition throw {A} (e : Error) : M A := fun w => (Throw e, w).

(** [try { body } catch (e) { handler }] *)
Definition try_catch {A} (body : M A) (handler : Error -> M A) : M A :=
  fun w =>
    match body w with
    | (Throw e, w') => handler e w'
    | r => r
    end.

(** [for (const x of xs) { body }] *)
Fixpoint for_of {X} (xs : list X) (body : X -> M unit) : M unit :=
  match xs with
  | [] => ret tt
  | x :: xs' => bind (body x) (fun _ => for_of xs' body)
  end.

(** [await f(...)] seen from the caller: [return v] inside [f] gives the
    value [v], running off the end gives [undefined] ([None]), and a
    throw that [f] does not catch rejects the promise, which throws at
    the [await]. *)
Definition call_function (body : M unit) : M (option bool) :=
  fun w =>
    match body w with
    | (Normal _, w') => (Normal None, w')
    | (Return v, w') => (Normal (Some v), w')
    | (Throw e, w') => (Throw e, w')
    end.

Definition console_log (l : Line) : M unit :=
  fun w => (Normal tt, mkWorld (store w) (calls w) (console w ++ [l])).

(** [logTest(name, ok, details)]: the status line, then the details
    line when [details] is truthy (the timestamp is not modelled). *)
Definition logTest (name : TestName) (ok : bool) (details : Details)
  : M unit :=
  bind (console_log (TestLine name ok)) (fun _ =>
  if details_truthy details then console_log (DetailsLine details)
  else ret tt).

(** [await wait(ms)]: only time passes. *)
Definition wait (ms : Z) : M unit := ret tt.

(** A method of the generated client, where it is given a string, and
    where it is given whatever value a variable holds. *)
Definition Method (D : Type) : Type := string -> Store -> Settled D * Store.

Definition ValueMethod (D : Type) : Type :=
  Js.value -> Store -> Settled D * Store.

(** [await method.call(api, id)]: the request is recorded, the store
    moves on, and the result is the response or a throw. *)
Definition await_call {D} (v : Verb) (method : Method D) (id : string)
  : M (Z * D) :=
  fun w =>
    let (r, s') := method id (store w) in
    let w' := mkWorld s' (calls w ++ [on v id]) (console w) in
    match r with
    | Resolved st d => (Normal (st, d), w')
    | Rejected e => (Throw e, w')
    end.

(** The same for a method given a value. *)
Definition await_value_call {D} (v : Verb) (method : ValueMethod D)
    (id : Js.value) : M (Z * D) :=
  fun w =>
    let (r, s') := method id (store w) in
    let w' := mkWorld s' (calls w ++ [(v, id)]) (console w) in
    match r with
    | Resolved st d => (Normal (st, d), w')
    | Rejected e => (Throw e, w')
    end.

End Embedding.

Arguments World : clear implicits.
Arguments M : clear implicits.
Arguments Method : clear implicits.
Arguments ValueMethod : clear implicits.

Declare Scope js_scope.
Delimit Scope js_scope with js.
Notation "x <- c ;; k" := (bind c (fun x => k))
  (at level 61, c at next level, right associativity) : js_scope.
Notation "c ;; k" := (bind c (fun _ => k))
  (at level 61, right associativity) : js_scope.

Local Open Scope js_scope.

(** ** media-api-tests.js *)

Section Media.

Context {Store : Type}.

(** Lines 82-88: the optional unpublish step, with its own
    [try]/[catch]. *)
Definition unpublish_step (itemId : string) (kind : Kind)
    (unpublishMethod : option (Method Store unit)) : M Store unit :=
  match unpublishMethod with
  | Some unpublishMethod =>
      try_catch (
        _ <- await_call Unpublish unpublishMethod itemId ;;
        console_log (Unpublished kind) ;;
        wait 400)
      (fun e =>
        if status_is e 404 then console_log NotPublished
        else console_log (UnpublishFailed (status_or e EmptyString)))
  | None => ret tt
  end.

(** Lines 91-97: the body of the loop over the candidate ids. *)
Definition delete_attempt (kind : Kind) (deleteMethod : Method Store unit)
    (id : string) : M Store unit :=
  try_catch (
    resp <- await_call Delete deleteMethod id ;;
    if (fst resp =? 200)%Z
    then logTest (DeleteKind kind) true (IdIs id) ;;
         return_ true
    else ret tt)
  (fun e =>
    (if status_is e 404
     then logTest (DeleteKind kind) true (AlreadyGone id) ;;
          return_ true
     else ret tt) ;;
    console_log (DeleteAttemptFailed id (status_or e (message e)))).

(** [safeDeleteDocument(itemId, kind, deleteMethod, unpublishMethod)],
    lines 79-104.  [unpublishMethod] is tested for truthiness, so it is
    optional. *)
Definition safeDeleteDocument (itemId : Js.value) (kind : Kind)
    (deleteMethod : Method Store unit)
    (unpublishMethod : option (Method Store unit))
  : M Store (option bool) :=
  call_function (
    if negb (Js.truthy itemId) then return_ false else
    match itemId with
    | Js.VStr itemId =>
        try_catch (
          unpublish_step itemId kind unpublishMethod ;;
          let tryIds := tryIds itemId in
          for_of (Js.Set_of tryIds) (delete_attempt kind deleteMethod))
        (fun e =>
          logTest (DeleteKind kind) false (ErrorMessage (message e))) ;;
        console_log (MayBeProtected kind) ;;
        return_ false
    | Js.VUndefined | Js.VNull =>
        (* not reached: both are falsy *)
        return_ false
    end).

(** An entry of [state.created]: [{ id, type, aposDocId }]. *)
Record Created : Type := { id : Js.value; aposDocId : Js.value; type : Kind }.

(** The methods of [mediaApi] that the cleanup uses. *)
Record MediaApi : Type := {
  imageDeleteById : Method Store unit;
  imageUnpublishById : Method Store unit;
  fileDeleteById : Method Store unit;
  fileUnpublishById : Method Store unit;
  imageTagDeleteById : Method Store unit;
  imageTagUnpublishById : Method Store unit;
  fileTagDeleteById : Method Store unit;
  fileTagUnpublishById : Method Store unit
}.

(** The [switch (it.type)] of lines 322-327. *)
Definition del_of (mediaApi : MediaApi) (t : Kind) : Method Store unit :=
  match t with
  | image => imageDeleteById mediaApi
  | file => fileDeleteById mediaApi
  | imageTag => imageTagDeleteById mediaApi
  | fileTag => fileTagDeleteById mediaApi
  end.

Definition unpub_of (mediaApi : MediaApi) (t : Kind) : Method Store unit :=
  match t with
  | image => imageUnpublishById mediaApi
  | file => fileUnpublishById mediaApi
  | imageTag => imageTagUnpublishById mediaApi
  | fileTag => fileTagUnpublishById mediaApi
  end.

(** The id the cleanup hands to [safeDeleteDocument], line 328:
    [it.aposDocId || it.id]. *)
Definition itemId_of (it : Created) : Js.value :=
  Js.or (aposDocId it) (id it).

(** How the cleanup retires one created item (lines 321-329): the
    specification's [retire], with the item as its reference and the
    two methods of the item's kind as its operations. *)
Definition retire (mediaApi : MediaApi) (it : Created)
  : M Store (option bool) :=
  let del := del_of mediaApi (type it) in
  let unpub := unpub_of mediaApi (type it) in
  safeDeleteDocument (itemId_of it) (type it) del (Some unpub).

(** Test 15 of [runMediaTests], lines 319-330: the created items are
    retired in reverse order of creation. *)
Definition cleanup (mediaApi : MediaApi) (created : list Created)
  : M Store unit :=
  let items := rev created in
  for_of items (fun it =>
    _ <- retire mediaApi it ;;
    wait 300).

End Media.

Arguments Created : clear implicits.
Arguments MediaApi : clear implicits.

(** ** authorization-api-tests.js (the pages script) *)

Section Pages.

Context {Store : Type}.

(** The methods of [pagesApi] that [safeDeletePage] uses.  [data] of a
    page read may be missing. *)
Record PagesApi : Type := {
  pageGetById : Method Store (Data PageData);
  pageUnpublishById : Method Store unit;
  pageDeleteById : ValueMethod Store unit
}.

Variable pagesApi : PagesApi.

(** Lines 821-828: [actualPageData] after the read attempt, as the
    test [if (actualPageData)] of line 847 sees it: the data when it
    is truthy.  Reading [aposDocId] of a missing [data] throws inside
    the [try], and the variable stays falsy. *)
Definition read_page (pageId : string) : M Store (option PageData) :=
  try_catch (
    pageResponse <- await_call GetById (pageGetById pagesApi) pageId ;;
    match snd pageResponse with
    | Object actualPageData =>
        console_log (PageInfo (page_aposDocId actualPageData)
                              (page_id actualPageData)) ;;
        ret (if page_truthy actualPageData then Some actualPageData
             else None)
    | Missing n => throw (TypeError n)
    end)
  (fun error =>
    console_log (CouldNotRetrieve (message error)) ;;
    ret None).

(** Lines 844-855: the id of the first delete attempt.  With page
    data it is the [aposDocId] field of the data, whatever that holds. *)
Definition first_deleteId (actualPageData : option PageData)
    (pageId : string) : M Store Js.value :=
  match actualPageData with
  | Some d =>
      let deleteId := page_aposDocId d in
      console_log (UsingAposDocId deleteId) ;;
      ret deleteId
  | None =>
      if Js.includes published_marker pageId then
        let deleteId := Js.split0 ":"%char pageId in
        console_log (UsingBaseId deleteId) ;;
        ret (Js.VStr deleteId)
      else ret (Js.VStr pageId)
  end.

(** Lines 817-866: the [try] block.  It ends by [return true], by
    [return false] (a delete that resolved with another status), or by
    the throw of the first delete. *)
Definition try_block (pageId pageName : string) : M Store unit :=
  console_log (Attempting pageName pageId) ;;
  actualPageData <- read_page pageId ;;
  try_catch (
    console_log (Unpublishing pageName) ;;
    unpublishResponse <-
      await_call Unpublish (pageUnpublishById pagesApi) pageId ;;
    console_log (UnpublishSuccessful (fst unpublishResponse)))
  (fun unpublishError =>
    console_log (UnpublishFailedOrNotNeeded (message unpublishError))) ;;
  wait 200 ;;
  deleteId <- first_deleteId actualPageData pageId ;;
  console_log (Deleting pageName deleteId) ;;
  deleteResponse <-
    await_value_call Delete (pageDeleteById pagesApi) deleteId ;;
  if (fst deleteResponse =? 200)%Z
  then logTest (DeleteNamed pageName) true (SuccessfullyDeleted deleteId) ;;
       return_ true
  else logTest (DeleteNamed pageName) false
         (DeleteFailedWithStatus (fst deleteResponse)) ;;
       return_ false.

(** Lines 867-910: the [catch (deleteError)] block. *)
Definition catch_block (pageId pageName : string) (deleteError : Error)
  : M Store unit :=
  console_log (FirstDeleteAttemptFailed (message deleteError)) ;;
  (if Js.includes published_marker pageId then
     try_catch (
       let draftId := Js.replace published_marker draft_marker pageId in
       console_log (TryingDraftId draftId) ;;
       deleteResponse <-
         await_value_call Delete (pageDeleteById pagesApi)
           (Js.VStr draftId) ;;
       if (fst deleteResponse =? 200)%Z
       then logTest (DeleteNamed pageName) true
              (SuccessfullyDeletedDraft draftId) ;;
            return_ true
       else ret tt)
     (fun draftError =>
       console_log (DraftIdAlsoFailed (message draftError))) ;;
     try_catch (
       let baseId := Js.split0 ":"%char pageId in
       console_log (TryingBaseId baseId) ;;
       deleteResponse <-
         await_value_call Delete (pageDeleteById pagesApi)
           (Js.VStr baseId) ;;
       if (fst deleteResponse =? 200)%Z
       then logTest (DeleteNamed pageName) true
              (SuccessfullyDeletedBase baseId) ;;
            return_ true
       else ret tt)
     (fun baseError =>
       console_log (BaseIdAlsoFailed (message baseError)))
   else ret tt) ;;
  logTest (DeleteNamed pageName) false (AllAttemptsFailed pageId) ;;
  console_log ManualCleanupHint ;;
  match response deleteError with
  | Some r =>
      console_log (HttpStatusLine (status r)) ;;
      console_log (ErrorDetailsLine (statusText r))
  | None => ret tt
  end ;;
  return_ false.

(** [safeDeletePage(pageId, pageName)], lines 816-911. *)
Definition safeDeletePage (pageId pageName : string)
  : M Store (option bool) :=
  call_function (
    try_catch (try_block pageId pageName) (catch_block pageId pageName)).

End Pages.

Arguments PagesApi : clear implicits.

(** ** The specification's vocabulary *)

(** The result of one resolution attempt as the specification names it.
    The helpers return only a boolean and say the rest on the console:
    [true] after the line [id=...] is a deletion, [true] after the line
    [already gone (...)] is a confirmed absence, and [false] comes with
    one [Delete attempt with ... failed] line per failed candidate. *)
Inductive LifecycleOutcome : Type :=
| Deleted
| AlreadyAbsent
| Failed (reasons : list Printed).

(** The reasons printed by the failed attempts, in printing order. *)
Definition reasons (printed : list Line) : list Printed :=
  flat_map (fun l => match l with
                     | DeleteAttemptFailed _ why => [why]
                     | _ => []
                     end) printed.

Definition says_already_gone (printed : list Line) : bool :=
  existsb (fun l => match l with
                    | DetailsLine (AlreadyGone _) => true
                    | _ => false
                    end) printed.

(** The outcome of a call of [safeDeleteDocument] that returned
    [returned] and printed [printed]. *)
Definition outcome (returned : bool) (printed : list Line)
  : LifecycleOutcome :=
  if returned
  then if says_already_gone printed then AlreadyAbsent else Deleted
  else Failed (reasons printed).

(** The messages printed by the failed attempts of [safeDeletePage]. *)
Definition page_reasons (printed : list Line) : list string :=
  flat_map (fun l => match l with
                     | FirstDeleteAttemptFailed m => [m]
                     | DraftIdAlsoFailed m => [m]
                     | BaseIdAlsoFailed m => [m]
                     | _ => []
                     end) printed.

(** Removing duplicates while preserving first-occurrence order, as the
    specification words it. *)
Fixpoint first_occurrences (l : list string) : list string :=
  match l with
  | [] => []
  | x :: l' => x :: filter (fun y => negb (y =? x)) (first_occurrences l')
  end.

(** The candidate set in the specification's words (its section 3):
    [aposDocId] if known, then [rawId] with the published marker
    rewritten to the draft marker, then [rawId] stripped of its suffix;
    duplicates removed keeping first occurrences; [rawId] itself if
    nothing is left. *)
Definition spec_IdCandidateSet (rawId : string) (aposDocId : option string)
  : list string :=
  let derived :=
    first_occurrences
      (match aposDocId with Some a => [a] | None => [] end
       ++ [ Js.replace published_marker draft_marker rawId;
            Js.split0 ":"%char rawId ]) in
  match derived with
  | [] => [rawId]
  | _ => derived
  end.

(** An id that is known: a truthy value, that is a non-empty string. *)
Definition known (v : Js.value) : option string :=
  match v with
  | Js.VStr s => if s =? EmptyString then None else Some s
  | _ => None
  end.

(** ** Observing a run *)

Section Observations.

Context {Store : Type}.

(** What a run from [w] to [w'] printed, and which calls it made. *)
Definition printed (w w' : World Store) : list Line :=
  skipn (length (console w)) (console w').

Definition invoked (w w' : World Store) : list Call :=
  skipn (length (calls w)) (calls w').

(** The responses a method gives when it is invoked on [ids] in turn,
    starting from store [s]. *)
Fixpoint responses {I D} (method : I -> Store -> Settled D * Store)
    (ids : list I) (s : Store) : list (Settled D) :=
  match ids with
  | [] => []
  | id :: ids' =>
      let (r, s') := method id s in
      r :: responses method ids' s'
  end.

(** The store once the unpublish step of [safeDeleteDocument] is over. *)
Definition store_after_unpublish
    (unpublishMethod : option (Method Store unit)) (itemId : string)
    (s : Store) : Store :=
  match unpublishMethod with
  | Some unpublishMethod => snd (unpublishMethod itemId s)
  | None => s
  end.

(** [w] with more lines on the console. *)
Definition say (w : World Store) (ls : list Line) : World Store :=
  mkWorld (store w) (calls w) (console w ++ ls).

(** [w] once [verb] was invoked on [id] and left the store [s']. *)
Definition called (w : World Store) (verb : Verb) (id : string)
    (s' : Store) : World Store :=
  mkWorld s' (calls w ++ [on verb id]) (console w).

(** The line the unpublish step prints for a response. *)
Definition unpublish_line (kind : Kind) (r : Settled unit) : Line :=
  match r with
  | Resolved _ _ => Unpublished kind
  | Rejected e =>
      if status_is e 404 then NotPublished
      else UnpublishFailed (status_or e EmptyString)
  end.

(** The world once the unpublish step is over. *)
Definition unpublished (kind : Kind) (itemId : string)
    (unpub : option (Method Store unit)) (w : World Store) : World Store :=
  match unpub with
  | Some u =>
      say (called w Unpublish itemId (snd (u itemId (store w))))
          [unpublish_line kind (fst (u itemId (store w)))]
  | None => w
  end.

(** What the unpublish step prints and invokes. *)
Definition unpublish_says (kind : Kind) (itemId : string)
    (unpub : option (Method Store unit)) (s : Store) : list Line :=
  match unpub with
  | Some u => [unpublish_line kind (fst (u itemId s))]
  | None => []
  end.

Definition unpublish_calls (itemId : string)
    (unpub : option (Method Store unit)) : list Call :=
  match unpub with
  | Some _ => [on Unpublish itemId]
  | None => []
  end.

(** The reason an attempt prints for the error it caught
    ([e.response?.status || e.message]). *)
Definition reason_of (e : Error) : Printed := status_or e (message e).

Definition failure_lines (ids : list string) (errs : list Error)
  : list Line :=
  map (fun p => DeleteAttemptFailed (fst p) (reason_of (snd p)))
      (combine ids errs).

(** What the cleanup invokes unpublish on for an item. *)
Definition unpublish_target (it : Created) : list Js.value :=
  match known (itemId_of it) with
  | Some s => [Js.VStr s]
  | None => []
  end.

(** [actualPageData] for a store: the data of a resolved read, when
    it is truthy. *)
Definition page_data (api : PagesApi Store) (pageId : string) (s : Store)
  : option PageData :=
  match fst (pageGetById api pageId s) with
  | Resolved _ (Object data) => if page_truthy data then Some data else None
  | Resolved _ (Missing _) | Rejected _ => None
  end.

(** The id of the first delete attempt (lines 844-855). *)
Definition page_first_id (data : option PageData) (pageId : string)
  : Js.value :=
  match data with
  | Some d => page_aposDocId d
  | None => if Js.includes published_marker pageId
            then Js.VStr (Js.split0 ":"%char pageId)
            else Js.VStr pageId
  end.

(** The ids tried after a first attempt that threw (lines 871-899). *)
Definition page_alternatives (pageId : string) : list string :=
  if Js.includes published_marker pageId
  then [ Js.replace published_marker draft_marker pageId;
         Js.split0 ":"%char pageId ]
  else [].

(** The ids [safeDeletePage] can invoke delete on, in order. *)
Definition page_candidates (data : option PageData) (pageId : string)
  : list Js.value :=
  page_first_id data pageId :: map Js.VStr (page_alternatives pageId).

(** The store at the first delete: after the read and the unpublish. *)
Definition store_before_delete (api : PagesApi Store) (pageId : string)
    (s : Store) : Store :=
  snd (pageUnpublishById api pageId (snd (pageGetById api pageId s))).

End Observations.


(** What the specification claims of the ids tried for a reference
    with identifier [rawId] and optional [aposDocId]: they are the
    sequence it derives, and when [aposDocId] is not known [rawId]
    itself is not among them. *)
Definition claimed_candidate_set (rawId : string) (aposDocId : option string)
    (tried : list Js.value) : Prop :=
  tried = map Js.VStr (spec_IdCandidateSet rawId aposDocId) /\
  (aposDocId = None -> ~ In (Js.VStr rawId) tried).

(** ** The page cleanup of [runPagesTests] *)

Section PageCleanup.

Context {Store : Type}.
Variable pagesApi : PagesApi Store.

(** authorization-api-tests.js, lines 913-922: the child page is deleted
    first, then the test page; an id that is still [null] is skipped. *)
Definition delete_test_pages (childPageId testPageId : Js.value)
  : M Store unit :=
  (if Js.truthy childPageId then
     match childPageId with
     | Js.VStr childPageId =>
         _ <- safeDeletePage pagesApi childPageId "child page" ;;
         wait 500
     | Js.VUndefined | Js.VNull => ret tt   (* not reached: both are falsy *)
     end
   else ret tt) ;;
  (if Js.truthy testPageId then
     match testPageId with
     | Js.VStr testPageId =>
         _ <- safeDeletePage pagesApi testPageId "test page" ;;
         ret tt
     | Js.VUndefined | Js.VNull => ret tt   (* not reached: both are falsy *)
     end
   else ret tt).

End PageCleanup.

(** ** Test 5 of [runMediaTests]: the image renditions *)

(** [preferredOrder], media-api-tests.js line 192. *)
Definition preferredOrder : list string :=
  ["max"; "full"; "original"; "large"; "medium"; "small"; "thumbnail"].

(** [array.includes(s)], [array.find(p)] and [array[0]] on an array of
    strings; the last two give [undefined] when there is nothing. *)
Definition array_includes (array : list string) (s : string) : bool :=
  existsb (String.eqb s) array.

Definition array_find (p : string -> bool) (array : list string) : Js.value :=
  match find p array with
  | Some s => Js.VStr s
  | None => Js.VUndefined
  end.

Definition array_first (array : list string) : Js.value :=
  match array with
  | s :: _ => Js.VStr s
  | [] => Js.VUndefined
  end.

(** Line 193:
    [preferredOrder.find(s => sizes.includes(s)) || sizes[0]]. *)
Definition pick_size (sizes : list string) : Js.value :=
  Js.or (array_find (fun s => array_includes sizes s) preferredOrder)
        (array_first sizes).

(** [imgData] as Test 5 reads it; [image_urls] holds the keys of
    [attachment._urls], in the order of [Object.keys], when the
    attachment and its urls are there. *)
Record ImageData : Type := {
  image_aposDocId : Js.value;
  image_id : Js.value;
  image_urls : option (list string)
}.

(** The response of [imageGetSrcById] beside its status: the headers the
    test reads, when there are headers, and whether [data] is a string. *)
Record Headers : Type := { content_type : Js.value; location : Js.value }.

Record SrcResponse : Type := {
  headers : option Headers;
  data_is_string : bool
}.

(** [resp.headers?.['content-type']] and [resp.headers?.location] *)
Definition header_content_type (r : SrcResponse) : Js.value :=
  match headers r with
  | Some h => content_type h
  | None => Js.VUndefined
  end.

Definition header_location (r : SrcResponse) : Js.value :=
  match headers r with
  | Some h => location h
  | None => Js.VUndefined
  end.

(** [ctype && ctype.startsWith('image/')], as a condition. *)
Definition is_image (ctype : Js.value) : bool :=
  match ctype with
  | Js.VStr s => negb (s =? EmptyString) && prefix "image/" s
  | Js.VUndefined | Js.VNull => false
  end.

(** The requests of Tests 1, 3, 5, 6, 9 and 10: a post of a document of
    some type, the read of an image, the read of a rendition. *)
Inductive Asked : Type :=
| AskedPost (type : Kind)
| AskedImage (id : Js.value)
| AskedSrc (aposDocId size : Js.value).

(** First argument of [logTest] in these tests, and its third
    argument. *)
Inductive MediaTest : Type :=
| CreateImage
| GetImageById
| GetImageSrc
| GetImageSrcPreferred
| GetImageSrcAllSizes
| CreateFile
| CreateImageTag
| CreateFileTag.

Inductive MediaDetails : Type :=
| NoDetails
| IdText (_id : Js.value)
| UnexpectedResponse
| AposDocIdText (aposDocId : Js.value)
| SlugOf (slug : Js.value)
| NoRenditionSizes
| PreferredRedirect (pick loc : Js.value)
| PreferredServed (pick ctype : Js.value)
| PreferredUrlString (pick : Js.value)
| PreferredUnexpected (st : Z) (ctype pick : Js.value)
| SuccessCount (okCount total : nat)
| NoMatchingSize
| RedirectTo (loc : Js.value)
| CaughtMessage (m : string).

(** Whether [details] is truthy in [logTest]: a missing argument and
    an empty string are not; [IdText] is the template string of the id
    alone, [SlugOf] the slug itself; the other texts are never empty. *)
Definition media_details_truthy (d : MediaDetails) : bool :=
  match d with
  | NoDetails => false
  | IdText (Js.VStr s) => negb (s =? EmptyString)
  | SlugOf slug => Js.truthy slug
  | CaughtMessage m => negb (m =? EmptyString)
  | _ => true
  end.

(** One constructor per [console.log] of these tests. *)
Inductive Note : Type :=
| Test1Heading
| Test3Heading
| Test5Heading
| Test6Heading
| Test9Heading
| Test10Heading
| Result (name : MediaTest) (ok : bool)
| ResultDetails (d : MediaDetails)
| SizeRedirect (size : string)
| SizeServed (size : string) (ctype : Js.value)
| SizeUrlString (size : string)
| SizeUnexpected (size : string) (st : Z) (ctype : Js.value)
| SizeNotFound (size : string)
| SizeFailed (size : string) (m : string).

(** The state these tests run on: the remote store, the requests made and
    the lines printed.  It takes the place of the store in the world, so
    that the tests use the completions of the cleanup helpers; the
    [calls] and the [console] of the world belong to those helpers and
    the tests leave them alone. *)
Record Session (Store : Type) : Type := mkSession {
  remote : Store;
  asked : list Asked;
  report : list Note
}.
Arguments mkSession {Store} remote asked report.
Arguments remote {Store} s.
Arguments asked {Store} s.
Arguments report {Store} s.

Section ImageSrcTest.

Context {Store : Type}.

(** A request of the generated client with its arguments applied. *)
Definition Request (D : Type) : Type := Store -> Settled D * Store.

(** The two methods of [mediaApi] that Test 5 uses.  [data] of an image
    read may be missing. *)
Record MediaReads : Type := {
  imageGetById : Js.value -> Request (Data ImageData);
  imageGetSrcById : Js.value -> Js.value -> Request SrcResponse
}.

Variable mediaApi : MediaReads.

(** [error.response.headers?.location] of a caught error: the [Error]
    record keeps the status of the response only, so the header is
    read through this function. *)
Variable error_location : Error -> Js.value.

(** [console.log(...)] of a line of Test 5. *)
Definition note (n : Note) : M (Session Store) unit :=
  fun w =>
    let s := store w in
    (Normal tt,
     mkWorld (mkSession (remote s) (asked s) (report s ++ [n]))
             (calls w) (console w)).

(** [logTest(name, ok, details)] *)
Definition report_test (name : MediaTest) (ok : bool) (details : MediaDetails)
  : M (Session Store) unit :=
  note (Result name ok) ;;
  if media_details_truthy details then note (ResultDetails details)
  else ret tt.

(** [await mediaApi.method(...)]: the request is recorded, the remote
    store moves on, and the result is the response or a throw. *)
Definition await_request {D} (a : Asked) (request : Request D)
  : M (Session Store) (Z * D) :=
  fun w =>
    let s := store w in
    let (r, remote') := request (remote s) in
    let w' := mkWorld (mkSession remote' (asked s ++ [a]) (report s))
                      (calls w) (console w) in
    match r with
    | Resolved st d => (Normal (st, d), w')
    | Rejected e => (Throw e, w')
    end.

(** A loop whose body updates a local variable:
    [let v = ...; for (const x of xs) { ... v ... }]. *)
Fixpoint for_of_with {X V : Type} (xs : list X)
    (body : X -> V -> M (Session Store) V) (v : V) : M (Session Store) V :=
  match xs with
  | [] => ret v
  | x :: xs' => v' <- body x v ;; for_of_with xs' body v'
  end.

(** Lines 195-208, part A: the preferred size. *)
Definition check_preferred (aposDocId pick : Js.value)
  : M (Session Store) unit :=
  resp <- await_request (AskedSrc aposDocId pick)
            (imageGetSrcById mediaApi aposDocId pick) ;;
  let status := fst resp in
  let ctype := header_content_type (snd resp) in
  if (status =? 302)%Z then
    let loc := Js.or (header_location (snd resp))
                     (Js.VStr "(no location header)") in
    report_test GetImageSrcPreferred true (PreferredRedirect pick loc)
  else if (status =? 200)%Z && is_image ctype then
    report_test GetImageSrcPreferred true (PreferredServed pick ctype)
  else if (status =? 200)%Z && data_is_string (snd resp) then
    report_test GetImageSrcPreferred true (PreferredUrlString pick)
  else
    report_test GetImageSrcPreferred false
      (PreferredUnexpected status (Js.or ctype (Js.VStr "n/a")) pick).

(** Lines 212-226: the body of the loop of part B, from the value of
    [okCount] before to its value after. *)
Definition check_size (aposDocId : Js.value) (size : string) (okCount : nat)
  : M (Session Store) nat :=
  try_catch (
    r <- await_request (AskedSrc aposDocId (Js.VStr size))
           (imageGetSrcById mediaApi aposDocId (Js.VStr size)) ;;
    let st := fst r in
    let ct := header_content_type (snd r) in
    if (st =? 302)%Z then
      note (SizeRedirect size) ;; ret (S okCount)
    else if (st =? 200)%Z && is_image ct then
      note (SizeServed size ct) ;; ret (S okCount)
    else if (st =? 200)%Z && data_is_string (snd r) then
      note (SizeUrlString size) ;; ret (S okCount)
    else
      note (SizeUnexpected size st (Js.or ct (Js.VStr "n/a"))) ;;
      ret okCount)
  (fun e =>
    if status_is e 404 then note (SizeNotFound size) ;; ret okCount
    else if status_is e 302 then note (SizeRedirect size) ;; ret (S okCount)
    else note (SizeFailed size (message e)) ;; ret okCount).

(** Lines 210-227, part B: every size of the same image. *)
Definition check_all_sizes (aposDocId : Js.value) (sizes : list string)
  : M (Session Store) unit :=
  okCount <- for_of_with sizes (check_size aposDocId) 0 ;;
  report_test GetImageSrcAllSizes (0 <? okCount)%nat
    (SuccessCount okCount (length sizes)).

(** Lines 180-228: the [try] block of Test 5.  [imageId] and
    [imageAposDocId] are the two fields of [state] it reads. *)
Definition test5_try (imageId imageAposDocId : Js.value)
  : M (Session Store) unit :=
  imgResp <- await_request (AskedImage imageId)
               (imageGetById mediaApi imageId) ;;
  let imgData := snd imgResp in
  aposDocId <-
    (if Js.truthy imageAposDocId then ret imageAposDocId
     else match imgData with
          | Object d => ret (Js.or (image_aposDocId d) (image_id d))
          | Missing n => throw (TypeError n)
          end) ;;
  let sizes :=
    match imgData with
    | Object d => match image_urls d with Some keys => keys | None => [] end
    | Missing _ => []
    end in
  if (length sizes =? 0)%nat then
    report_test GetImageSrc false NoRenditionSizes
  else
    let pick := pick_size sizes in
    check_preferred aposDocId pick ;;
    check_all_sizes aposDocId sizes.

(** Lines 229-238: the [catch (e)] block of Test 5. *)
Definition test5_catch (e : Error) : M (Session Store) unit :=
  if status_is e 404 then
    report_test GetImageSrc false NoMatchingSize
  else if status_is e 302 then
    let loc := Js.or (error_location e) (Js.VStr "redirect") in
    report_test GetImageSrc true (RedirectTo loc)
  else
    report_test GetImageSrc false (CaughtMessage (message e)).

(** Test 5, lines 179-239. *)
Definition test5 (imageId imageAposDocId : Js.value)
  : M (Session Store) unit :=
  note Test5Heading ;;
  try_catch (test5_try imageId imageAposDocId) test5_catch ;;
  wait 300.

(** Whether a response to a size counts in [okCount]. *)
Definition served (r : Settled SrcResponse) : bool :=
  match r with
  | Resolved st d =>
      (st =? 302)%Z
      || ((st =? 200)%Z
          && (is_image (header_content_type d) || data_is_string d))
  | Rejected e => negb (status_is e 404) && status_is e 302
  end.

(** The request for one size of an image, as a method on the size. *)
Definition src_of (aposDocId : Js.value) : Method Store SrcResponse :=
  fun size => imageGetSrcById mediaApi aposDocId (Js.VStr size).

End ImageSrcTest.

Arguments MediaReads : clear implicits.
Arguments Request : clear implicits.

(** *** The tests of [runMediaTests] that write to [state] *)

(** [state] (lines 109-117) without the attachment, which these tests
    only read to build their payloads. *)
Record State : Type := mkState {
  state_imageId : Js.value;
  state_fileId : Js.value;
  state_imageTagId : Js.value;
  state_fileTagId : Js.value;
  state_created : list Created;
  state_imageAposDocId : Js.value
}.

(** The initial [state], lines 109-117. *)
Definition initial_state : State :=
  mkState Js.VNull Js.VNull Js.VNull Js.VNull [] Js.VNull.

(** [state.created.push(it)] *)
Definition push (it : Created) (state : State) : State :=
  mkState (state_imageId state) (state_fileId state)
          (state_imageTagId state) (state_fileTagId state)
          (state_created state ++ [it]) (state_imageAposDocId state).

(** The assignments to the fields of [state]. *)
Definition set_imageId (v : Js.value) (state : State) : State :=
  mkState v (state_fileId state) (state_imageTagId state)
          (state_fileTagId state) (state_created state)
          (state_imageAposDocId state).

Definition set_fileId (v : Js.value) (state : State) : State :=
  mkState (state_imageId state) v (state_imageTagId state)
          (state_fileTagId state) (state_created state)
          (state_imageAposDocId state).

Definition set_imageTagId (v : Js.value) (state : State) : State :=
  mkState (state_imageId state) (state_fileId state) v
          (state_fileTagId state) (state_created state)
          (state_imageAposDocId state).

Definition set_fileTagId (v : Js.value) (state : State) : State :=
  mkState (state_imageId state) (state_fileId state)
          (state_imageTagId state) v (state_created state)
          (state_imageAposDocId state).

Definition set_imageAposDocId (v : Js.value) (state : State) : State :=
  mkState (state_imageId state) (state_fileId state)
          (state_imageTagId state) (state_fileTagId state)
          (state_created state) v.

(** [data] of the response to a post, as the tests read it. *)
Record Doc : Type := {
  doc_id : Js.value;
  doc_aposDocId : Js.value;
  doc_slug : Js.value
}.

(** [a === b] on the values of the model. *)
Definition strict_eq (a b : Js.value) : bool :=
  match a, b with
  | Js.VUndefined, Js.VUndefined => true
  | Js.VNull, Js.VNull => true
  | Js.VStr s, Js.VStr t => (s =? t)%string
  | _, _ => false
  end.

Section StateTests.

Context {Store : Type}.

(** The four post methods of [mediaApi], each with the payload of its
    test applied; [data] of a response may be missing. *)
Record MediaPosts : Type := {
  imagePost : Request Store (option Doc);
  filePost : Request Store (option Doc);
  imageTagPost : Request Store (option Doc);
  fileTagPost : Request Store (option Doc)
}.

Variable mediaPosts : MediaPosts.
Variable mediaApi : MediaReads Store.

(** Test 1, lines 135-142.  [state] goes in and the state after the
    test comes out. *)
Definition test1 (state : State) : M (Session Store) State :=
  note Test1Heading ;;
  state <- try_catch (
    resp <- await_request (AskedPost image) (imagePost mediaPosts) ;;
    match resp with
    | (status, Some data) =>
        if (status =? 200)%Z && Js.truthy (doc_id data) then
          let state := set_imageId (doc_id data) state in
          let state := push {| id := doc_id data;
                               aposDocId := doc_aposDocId data;
                               type := image |} state in
          report_test CreateImage true (IdText (doc_id data)) ;;
          ret state
        else
          report_test CreateImage false UnexpectedResponse ;; ret state
    | (_, None) =>
        report_test CreateImage false UnexpectedResponse ;; ret state
    end)
    (fun e =>
      report_test CreateImage false (CaughtMessage (message e)) ;;
      ret state) ;;
  wait 300 ;;
  ret state.

(** Test 3, lines 154-166.  With [data] missing and [state.imageId]
    undefined the comparison holds and reading [data.aposDocId]
    throws. *)
Definition test3 (state : State) : M (Session Store) State :=
  note Test3Heading ;;
  state <- try_catch (
    resp <- await_request (AskedImage (state_imageId state))
              (imageGetById mediaApi (state_imageId state)) ;;
    let status := fst resp in
    let data := snd resp in
    let data_id := match data with
                   | Object d => image_id d
                   | Missing _ => Js.VUndefined
                   end in
    if (status =? 200)%Z && strict_eq data_id (state_imageId state) then
      match data with
      | Object data =>
          let state :=
            set_imageAposDocId
              (Js.or (image_aposDocId data) (image_id data)) state in
          report_test GetImageById true
            (AposDocIdText (state_imageAposDocId state)) ;;
          ret state
      | Missing n => throw (TypeError n)
      end
    else
      report_test GetImageById false NoDetails ;; ret state)
    (fun e =>
      report_test GetImageById false (CaughtMessage (message e)) ;;
      ret state) ;;
  wait 300 ;;
  ret state.

(** Test 6, lines 243-250. *)
Definition test6 (state : State) : M (Session Store) State :=
  note Test6Heading ;;
  state <- try_catch (
    resp <- await_request (AskedPost file) (filePost mediaPosts) ;;
    match resp with
    | (status, Some data) =>
        if (status =? 200)%Z && Js.truthy (doc_id data) then
          let state := set_fileId (doc_id data) state in
          let state := push {| id := doc_id data;
                               aposDocId := doc_aposDocId data;
                               type := file |} state in
          report_test CreateFile true (IdText (doc_id data)) ;;
          ret state
        else
          report_test CreateFile false NoDetails ;; ret state
    | (_, None) =>
        report_test CreateFile false NoDetails ;; ret state
    end)
    (fun e =>
      report_test CreateFile false (CaughtMessage (message e)) ;;
      ret state) ;;
  wait 300 ;;
  ret state.

(** Test 9, lines 265-272. *)
Definition test9 (state : State) : M (Session Store) State :=
  note Test9Heading ;;
  state <- try_catch (
    resp <- await_request (AskedPost imageTag) (imageTagPost mediaPosts) ;;
    match resp with
    | (status, Some data) =>
        if (status =? 200)%Z && Js.truthy (doc_id data) then
          let state := set_imageTagId (doc_id data) state in
          let state := push {| id := doc_id data;
                               aposDocId := doc_aposDocId data;
                               type := imageTag |} state in
          report_test CreateImageTag true (SlugOf (doc_slug data)) ;;
          ret state
        else
          report_test CreateImageTag false NoDetails ;; ret state
    | (_, None) =>
        report_test CreateImageTag false NoDetails ;; ret state
    end)
    (fun e =>
      report_test CreateImageTag false (CaughtMessage (message e)) ;;
      ret state) ;;
  wait 300 ;;
  ret state.

(** Test 10, lines 275-282. *)
Definition test10 (state : State) : M (Session Store) State :=
  note Test10Heading ;;
  state <- try_catch (
    resp <- await_request (AskedPost fileTag) (fileTagPost mediaPosts) ;;
    match resp with
    | (status, Some data) =>
        if (status =? 200)%Z && Js.truthy (doc_id data) then
          let state := set_fileTagId (doc_id data) state in
          let state := push {| id := doc_id data;
                               aposDocId := doc_aposDocId data;
                               type := fileTag |} state in
          report_test CreateFileTag true (SlugOf (doc_slug data)) ;;
          ret state
        else
          report_test CreateFileTag false NoDetails ;; ret state
    | (_, None) =>
        report_test CreateFileTag false NoDetails ;; ret state
    end)
    (fun e =>
      report_test CreateFileTag false (CaughtMessage (message e)) ;;
      ret state) ;;
  wait 300 ;;
  ret state.

(** The four tests that push to [state.created], each with the type of
    the items it pushes. *)
Definition creating_tests : list (Kind * (State -> M (Session Store) State)) :=
  [ (image, test1); (file, test6); (imageTag, test9); (fileTag, test10) ].

End StateTests.

Arguments MediaPosts : clear implicits.

(** ** Observing the further runs *)

(** Whether a response ends the loop of [safeDeleteDocument]: status 200
    and the rejection with 404 do, nothing else does. *)
Definition ends_loop (r : Settled unit) : bool :=
  match r with
  | Resolved st _ => (st =? 200)%Z
  | Rejected e => status_is e 404
  end.

(** The requests [safeDeletePage] makes for a page whose deletes went to
    [ds], and what a run of the page cleanup may request for an id. *)
Definition page_requests (pageId : string) (ds : list Js.value)
  : list Call :=
  on GetById pageId :: on Unpublish pageId :: map (pair Delete) ds.

Definition requests_for (pageId : Js.value) (cs : list Call) : Prop :=
  match known pageId with
  | Some id => exists ds, cs = page_requests id ds /\ 1 <= length ds <= 3
  | None => cs = []
  end.

(** The requests of the cleanup for one created item: none when the
    item has no truthy id; else one unpublish on [aposDocId || id] and
    then deletes on a non-empty prefix of the candidates of that id. *)
Definition retires (it : Created) (cs : list Call) : Prop :=
  match known (itemId_of it) with
  | Some itemId =>
      exists n,
        1 <= n <= length (candidates itemId) /\
        cs = on Unpublish itemId
             :: map (on Delete) (firstn n (candidates itemId))
  | None => cs = []
  end.

(** What a piece of Test 5 did between two worlds: it made the
    requests [qs], left the remote store [s'], printed some lines, and
    did not touch the calls and the console of the cleanup helpers. *)
Definition asks {Store : Type} (w w' : World (Session Store))
    (qs : list Asked) (s' : Store) : Prop :=
  calls w' = calls w /\
  console w' = console w /\
  asked (store w') = asked (store w) ++ qs /\
  remote (store w') = s' /\
  exists ns, report (store w') = report (store w) ++ ns.

(** The id Test 5 asks the renditions of:
    [state.imageAposDocId || imgData.aposDocId || imgData._id]. *)
Definition src_aposDocId (imageAposDocId : Js.value)
    (imgData : option ImageData) : Js.value :=
  if Js.truthy imageAposDocId then imageAposDocId
  else match imgData with
       | Some d => Js.or (image_aposDocId d) (image_id d)
       | None => Js.VUndefined
       end.

(** The id field of [state] that the creating test of a type
    assigns. *)
Definition id_field (type : Kind) (state : State) : Js.value :=
  match type with
  | image => state_imageId state
  | file => state_fileId state
  | imageTag => state_imageTagId state
  | fileTag => state_fileTagId state
  end.

(** Every item of a list of created items has a truthy [id]. *)
Definition ids_truthy (created : list Created) : Prop :=
  Forall (fun it => Js.truthy (id it) = true) created.

(** The post method the creating test of a type calls. *)
Definition post_of {Store : Type} (mediaPosts : MediaPosts Store) (k : Kind)
  : Request Store (option Doc) :=
  match k with
  | image => imagePost mediaPosts
  | file => filePost mediaPosts
  | imageTag => imageTagPost mediaPosts
  | fileTag => fileTagPost mediaPosts
  end.

(** What the creating test of type [k] does to [state] for the answer
    it got to its post.  For status 200 with data whose [_id] is truthy
    it pushes one item of that type, with the [_id] and the [aposDocId]
    of that data, and assigns the [_id] to the field of the type; the
    other fields stay.  For any other answer [state] stays as it
    was. *)
Definition records (k : Kind) (answer : Settled (option Doc))
    (state state' : State) : Prop :=
  match answer with
  | Resolved st (Some data) =>
      if (st =? 200)%Z && Js.truthy (doc_id data)
      then
        state_created state'
        = state_created state
          ++ [ {| id := doc_id data; aposDocId := doc_aposDocId data;
                  type := k |} ] /\
        id_field k state' = doc_id data /\
        (forall k', k' <> k -> id_field k' state' = id_field k' state) /\
        state_imageAposDocId state' = state_imageAposDocId state
      else state' = state
  | Resolved _ None | Rejected _ => state' = state
  end.

(** The requests for the sizes [sizes] of [aposDocId], in order. *)
Definition size_requests (aposDocId : Js.value) (sizes : list string)
  : list Asked :=
  map (fun size => AskedSrc aposDocId (Js.VStr size)) sizes.

(** [imgResp.data] of an answer to the image read; nothing when the
    read was rejected. *)
Definition read_data (r : Settled (Data ImageData)) : option ImageData :=
  match r with
  | Resolved _ d => object_of d
  | Rejected _ => None
  end.

(** The sizes Test 5 finds on the data of an image read. *)
Definition sizes_of (imgData : option ImageData) : list string :=
  match imgData with
  | Some d => match image_urls d with Some keys => keys | None => [] end
  | None => []
  end.

(** The rendition requests of a run of Test 5 from the remote store [s]:
    none without sizes; else the picked size, and every size after it
    when the request for the picked size resolved. *)
Definition src_requests {Store : Type} (mediaApi : MediaReads Store)
    (imageId imageAposDocId : Js.value) (s : Store) : list Asked :=
  let read := imageGetById mediaApi imageId s in
  let imgData := read_data (fst read) in
  let sizes := sizes_of imgData in
  let aposDocId := src_aposDocId imageAposDocId imgData in
  let pick := pick_size sizes in
  match sizes with
  | [] => []
  | _ :: _ =>
      AskedSrc aposDocId pick
      :: match fst (imageGetSrcById mediaApi aposDocId pick (snd read)) with
         | Resolved _ _ => size_requests aposDocId sizes
         | Rejected _ => []
         end
  end.

(** ** Concrete clients and stores, for the examples *)

(** The error of a request the server answered with status [st]. *)
Definition http_error (st : Z) : Error :=
  {| message := "Request failed";
     response := Some {| status := st; statusText := "status text" |} |}.

(** A method that rejects every request with status [st], and one that
    resolves every request with status 200. *)
Definition rejects {I S D : Type} (st : Z) : I -> S -> Settled D * S :=
  fun _ s => (Rejected (http_error st), s).

Definition resolves {I S D : Type} (d : D) : I -> S -> Settled D * S :=
  fun _ s => (Resolved 200 d, s).

(** A method that resolves every request with status [st] and no data. *)
Definition answers {I S : Type} (st : Z) : I -> S -> Settled unit * S :=
  fun _ s => (Resolved st tt, s).

(** A store with one document, known under every id: [true] while it
    is there.  Deleting it resolves with 200, deleting it again is
    rejected with 404. *)
Definition one_doc_delete {I : Type} : I -> bool -> Settled unit * bool :=
  fun _ present =>
    if present then (Resolved 200 tt, false)
    else (Rejected (http_error 404), false).

(** A delete that is refused whatever the id: 500 on the bare id [q],
    409 on the others. *)
Definition refusing_delete {S : Type} : Method S unit :=
  fun id s =>
    if id =? "q" then (Rejected (http_error 500), s)
    else (Rejected (http_error 409), s).

(** A delete method of the pages client that answers a string id as
    [m] does and rejects any other value with status 400. *)
Definition on_strings {S D : Type} (m : Method S D) : ValueMethod S D :=
  fun id s =>
    match id with
    | Js.VStr id => m id s
    | Js.VUndefined | Js.VNull => (Rejected (http_error 400), s)
    end.

(** A media client whose four kinds share one delete and one unpublish
    method, and a pages client. *)
Definition media_of {S : Type} (del unpub : Method S unit) : MediaApi S :=
  {| imageDeleteById := del; imageUnpublishById := unpub;
     fileDeleteById := del; fileUnpublishById := unpub;
     imageTagDeleteById := del; imageTagUnpublishById := unpub;
     fileTagDeleteById := del; fileTagUnpublishById := unpub |}.

Definition pages_of {S : Type} (get : Method S (Data PageData))
    (unpub : Method S unit) (del : ValueMethod S unit) : PagesApi S :=
  {| pageGetById := get; pageUnpublishById := unpub; pageDeleteById := del |}.

(** A world in which nothing was invoked or printed yet. *)
Definition fresh {S : Type} (s : S) : World S := mkWorld s [] [].

(** A published image created without a known [aposDocId], and one with
    it. *)
Definition published_item : Created :=
  {| id := Js.VStr "xyz:en:published"; aposDocId := Js.VNull; type := image |}.

Definition known_item : Created :=
  {| id := Js.VStr "abc:en:published"; aposDocId := Js.VStr "abc";
     type := image |}.

(** The world the first retirement of the one document leaves. *)
Definition after_first_retirement : World bool :=
  mkWorld false [on Unpublish "abc"; on Delete "abc"]
    [NotPublished; TestLine (DeleteKind image) true; DetailsLine (IdIs "abc")].

(** The data of a page read in which the server sent no [aposDocId]. *)
Definition page_without_aposDocId : PageData :=
  {| page_truthy := true;
     page_aposDocId := Js.VUndefined;
     page_id := Js.VStr "xyz:en:published" |}.

(** The data of a page read that resolved with an empty body. *)
Definition empty_body : PageData :=
  {| page_truthy := false;
     page_aposDocId := Js.VUndefined;
     page_id := Js.VUndefined |}.

(** The data of the page [p1]. *)
Definition page_p1 : PageData :=
  {| page_truthy := true;
     page_aposDocId := Js.VStr "p1";
     page_id := Js.VStr "p1:en:published" |}.

(** A page client whose delete resolves with status 204. *)
Definition pages_answering_204 : PagesApi unit :=
  pages_of (rejects 404) (rejects 404) (answers 204).

(** Requests of Test 5 that resolve with a status and data, or are
    rejected with a status, whatever the store. *)
Definition resolved_with {S D : Type} (st : Z) (d : D) : Request S D :=
  fun s => (Resolved st d, s).

Definition rejected_with {S D : Type} (st : Z) : Request S D :=
  fun s => (Rejected (http_error st), s).

(** An image with three sizes, one of them outside the preferred
    order. *)
Definition sample_image : ImageData :=
  {| image_aposDocId := Js.VStr "img1";
     image_id := Js.VStr "img1:en:draft";
     image_urls := Some ["full"; "max"; "one-third"] |}.

(** An image without attachment. *)
Definition bare_image : ImageData :=
  {| image_aposDocId := Js.VStr "img2";
     image_id := Js.VStr "img2:en:draft";
     image_urls := None |}.

(** A rendition source that redirects for [max], serves a PNG for
    [full], and knows no other size. *)
Definition sample_src (size : Js.value) : Request unit SrcResponse :=
  match size with
  | Js.VStr "max" =>
      resolved_with 302
        {| headers := Some {| content_type := Js.VUndefined;
                              location := Js.VStr "/uploads/img1.max.png" |};
           data_is_string := false |}
  | Js.VStr "full" =>
      resolved_with 200
        {| headers := Some {| content_type := Js.VStr "image/png";
                              location := Js.VUndefined |};
           data_is_string := false |}
  | _ => rejected_with 404
  end.

Definition sample_reads (image : Data ImageData) : MediaReads unit :=
  {| imageGetById := fun _ => resolved_with 200 image;
     imageGetSrcById := fun _ size => sample_src size |}.

(** A client whose rendition requests are all rejected with 500. *)
Definition failing_reads : MediaReads unit :=
  {| imageGetById := fun _ => resolved_with 200 (Object sample_image);
     imageGetSrcById := fun _ _ => rejected_with 500 |}.

(** The headers of a caught error are not kept: no location. *)
Definition no_location (e : Error) : Js.value := Js.VUndefined.

(** A client whose image post answers with a document and whose other
    posts are rejected with 500. *)
Definition sample_posts : MediaPosts unit :=
  {| imagePost :=
       resolved_with 200
         (Some {| doc_id := Js.VStr "img1:en:draft";
                  doc_aposDocId := Js.VStr "img1";
                  doc_slug := Js.VStr "sdk-test-image-1" |});
     filePost := rejected_with 500;
     imageTagPost := rejected_with 500;
     fileTagPost := rejected_with 500 |}.

(** A session in which nothing was asked or printed yet. *)
Definition fresh_session {S : Type} (s : S) : World (Session S) :=
  mkWorld (mkSession s [] []) [] [].

(** * Properties *)

(** ** The candidate set *)

Example candidates_published :
  candidates "abc:en:published" = ["abc:en:published"; "abc:en:draft"; "abc"].
Proof. reflexivity. Qed.

Example candidates_bare : candidates "id1" = ["id1"].
Proof. reflexivity. Qed.

Example candidates_draft :
  candidates "abc:en:draft" = ["abc:en:draft"; "abc"].
Proof. reflexivity. Qed.

Section CandidateSet.

Import Js.

Lemma Set_has_In (s : list string) (x : string) :
  Set_has s x = true <-> In x s.
Proof.
  unfold Set_has. rewrite existsb_exists. split.
  - intros [y [Hy Heq]]. apply String.eqb_eq in Heq. now subst.
  - intros H. exists x. split; [assumption | apply String.eqb_refl].
Qed.

Lemma Set_has_app (s t : list string) (x : string) :
  Set_has (s ++ t) x = Set_has s x || Set_has t x.
Proof. unfold Set_has. apply existsb_app. Qed.

Lemma filter_twice {A} (p q : A -> bool) (l : list A) :
  filter p (filter q l) = filter (fun a => q a && p a) l.
Proof.
  induction l as [|a l IH]; simpl; [reflexivity|].
  destruct (q a); simpl; [destruct (p a)|]; now rewrite IH.
Qed.

(** The set built by insertion is the accumulator followed by the
    first occurrences that are not in it yet. *)
Lemma fold_Set_add (l acc : list string) :
  fold_left Set_add l acc =
  acc ++ filter (fun y => negb (Set_has acc y)) (first_occurrences l).
Proof.
  revert acc. induction l as [|x l IH]; intros acc; simpl.
  - now rewrite app_nil_r.
  - rewrite IH. unfold Set_add.
    destruct (Set_has acc x) eqn:Hx; simpl.
    + f_equal. rewrite filter_twice. apply filter_ext. intros y.
      destruct (String.eqb_spec y x) as [->|Hne]; simpl.
      * now rewrite Hx.
      * reflexivity.
    + rewrite <- app_assoc. simpl. do 2 f_equal.
      rewrite filter_twice. apply filter_ext. intros y.
      rewrite Set_has_app. unfold Set_has at 2. simpl.
      rewrite orb_false_r, negb_orb, andb_comm. reflexivity.
Qed.

(** Refinement: spreading a [Set] is removing duplicates while keeping
    first occurrences. *)
Lemma Set_of_first_occurrences (l : list string) :
  Set_of l = first_occurrences l.
Proof.
  unfold Set_of. rewrite fold_Set_add. simpl.
  induction (first_occurrences l) as [|a m IH]; simpl; congruence.
Qed.

Lemma first_occurrences_In (l : list string) (x : string) :
  In x (first_occurrences l) <-> In x l.
Proof.
  induction l as [|a l IH]; simpl; [tauto|].
  rewrite filter_In, IH. split.
  - intros [H | [H _]]; auto.
  - intros [H | H]; [now left|].
    destruct (String.eqb_spec x a) as [->|Hne]; [now left|].
    right. split; [assumption|]. reflexivity.
Qed.

Lemma first_occurrences_NoDup (l : list string) :
  NoDup (first_occurrences l).
Proof.
  induction l as [|a l IH]; simpl; constructor.
  - rewrite filter_In. intros [_ H].
    now rewrite String.eqb_refl in H.
  - now apply NoDup_filter.
Qed.

Lemma candidates_first_occurrences (itemId : string) :
  candidates itemId = first_occurrences (tryIds itemId).
Proof. apply Set_of_first_occurrences. Qed.

Lemma candidates_head (itemId : string) :
  exists rest, candidates itemId = itemId :: rest.
Proof.
  rewrite candidates_first_occurrences. simpl. eauto.
Qed.

Lemma first_occurrences_length (l : list string) :
  length (first_occurrences l) <= length l.
Proof.
  induction l as [|a l IH]; simpl; [lia|].
  apply le_n_S. etransitivity; [apply filter_length_le | exact IH].
Qed.

Lemma candidates_length (itemId : string) :
  1 <= length (candidates itemId) <= 3.
Proof.
  split.
  - destruct (candidates_head itemId) as [rest ->]. simpl. lia.
  - rewrite candidates_first_occurrences.
    apply (first_occurrences_length (tryIds itemId)).
Qed.

End CandidateSet.

(** ** Runs of [safeDeleteDocument] *)

Ltac run_js :=
  cbv beta delta [bind try_catch call_function ret return_ throw wait
                  console_log logTest await_call await_value_call] ; simpl.

Section MediaRuns.

Context {Store : Type}.
Variable kind : Kind.
Variable del : Method Store unit.

(** The unpublish step always completes normally, whatever the
    response. *)
Lemma unpublish_step_run itemId unpub (w : World Store) :
  unpublish_step itemId kind unpub w
  = (Normal tt, unpublished kind itemId unpub w).
Proof.
  unfold unpublish_step, unpublished. destruct unpub as [u|]; [|reflexivity].
  run_js. destruct (u itemId (store w)) as [[st d|e] s']; simpl.
  - reflexivity.
  - destruct (status_is e 404); reflexivity.
Qed.

Lemma unpublished_store itemId unpub (w : World Store) :
  store (unpublished kind itemId unpub w) =
  store_after_unpublish unpub itemId (store w).
Proof. destruct unpub; reflexivity. Qed.

(** One attempt: the four ways it can go. *)
Lemma delete_attempt_run id (w : World Store) :
  delete_attempt kind del id w =
  let w1 := called w Delete id (snd (del id (store w))) in
  match fst (del id (store w)) with
  | Resolved st _ =>
      if (st =? 200)%Z
      then (Return true,
            say w1 [TestLine (DeleteKind kind) true; DetailsLine (IdIs id)])
      else (Normal tt, w1)
  | Rejected e =>
      if status_is e 404
      then (Return true,
            say w1 [TestLine (DeleteKind kind) true;
                    DetailsLine (AlreadyGone id)])
      else (Normal tt,
            say w1 [DeleteAttemptFailed id (status_or e (message e))])
  end.
Proof.
  unfold delete_attempt. run_js.
  destruct (del id (store w)) as [[st d|e] s']; simpl.
  - destruct (st =? 200)%Z; unfold say, called; simpl;
      [rewrite <- app_assoc|]; reflexivity.
  - destruct (status_is e 404); unfold say, called; simpl;
      [rewrite <- app_assoc|]; reflexivity.
Qed.

Lemma for_of_cons {X} (x : X) (xs : list X) (body : X -> M Store unit) w :
  for_of (x :: xs) body w =
  match body x w with
  | (Normal _, w') => for_of xs body w'
  | (Return v, w') => (Return v, w')
  | (Throw e, w') => (Throw e, w')
  end.
Proof. reflexivity. Qed.

(** From the loop to the function: a [return true] inside the loop is
    the function's result; a loop that runs to its end gives [false]
    after the closing hint. *)
Lemma safeDeleteDocument_returned itemId unpub w v w2 :
  itemId <> EmptyString ->
  for_of (candidates itemId) (delete_attempt kind del)
         (unpublished kind itemId unpub w) = (Return v, w2) ->
  safeDeleteDocument (Js.VStr itemId) kind del unpub w
  = (Normal (Some v), w2).
Proof.
  intros Hne Hloop. unfold safeDeleteDocument. simpl.
  apply String.eqb_neq in Hne. rewrite Hne. simpl.
  unfold call_function, try_catch, bind at 1 2.
  rewrite unpublish_step_run. fold (candidates itemId).
  rewrite Hloop. reflexivity.
Qed.

Lemma safeDeleteDocument_exhausted itemId unpub w w2 :
  itemId <> EmptyString ->
  for_of (candidates itemId) (delete_attempt kind del)
         (unpublished kind itemId unpub w) = (Normal tt, w2) ->
  safeDeleteDocument (Js.VStr itemId) kind del unpub w
  = (Normal (Some false), say w2 [MayBeProtected kind]).
Proof.
  intros Hne Hloop. unfold safeDeleteDocument. simpl.
  apply String.eqb_neq in Hne. rewrite Hne. simpl.
  unfold call_function, try_catch, bind at 1 2.
  rewrite unpublish_step_run. fold (candidates itemId).
  rewrite Hloop. reflexivity.
Qed.

End MediaRuns.

Section MediaLoop.

Context {Store : Type}.
Variable kind : Kind.
Variable del : Method Store unit.

Lemma printed_app (w w' : World Store) ls :
  console w' = console w ++ ls -> printed w w' = ls.
Proof.
  unfold printed. intros ->.
  rewrite skipn_app, skipn_all, Nat.sub_diag. reflexivity.
Qed.

Lemma invoked_app (w w' : World Store) cs :
  calls w' = calls w ++ cs -> invoked w w' = cs.
Proof.
  unfold invoked. intros ->.
  rewrite skipn_app, skipn_all, Nat.sub_diag. reflexivity.
Qed.

Lemma unpublished_console itemId unpub (w : World Store) :
  console (unpublished kind itemId unpub w) =
  console w ++ unpublish_says kind itemId unpub (store w).
Proof. destruct unpub; simpl; [reflexivity | now rewrite app_nil_r]. Qed.

Lemma unpublished_calls itemId unpub (w : World Store) :
  calls (unpublished kind itemId unpub w) =
  calls w ++ unpublish_calls itemId unpub.
Proof. destruct unpub; simpl; [reflexivity | now rewrite app_nil_r]. Qed.

Lemma unpublish_says_quiet itemId unpub (s : Store) :
  reasons (unpublish_says kind itemId unpub s) = [] /\
  says_already_gone (unpublish_says kind itemId unpub s) = false.
Proof.
  destruct unpub as [u|]; simpl; [|split; reflexivity].
  destruct (fst (u itemId s)) as [st d|e]; simpl; [split; reflexivity|].
  destruct (status_is e 404); split; reflexivity.
Qed.

(** The shape of every run of the loop: it ends normally or by
    [return true], never by a throw; it invoked delete on a prefix of
    the ids, in order; and when it returned [true] without the
    "already gone" line, the store it leaves is the one a delete that
    resolved with status 200 produced. *)
Lemma loop_shape (ids : list string) (w : World Store) :
  exists r w' n ls,
    for_of ids (delete_attempt kind del) w = (r, w') /\
    (r = Normal tt \/ r = Return true) /\
    n <= length ids /\
    (ids <> [] -> 1 <= n) /\
    (r = Normal tt -> n = length ids) /\
    calls w' = calls w ++ map (on Delete) (firstn n ids) /\
    console w' = console w ++ ls /\
    (r = Return true -> says_already_gone ls = false ->
     exists c s d, In c ids /\ del c s = (Resolved 200 d, store w')).
Proof.
  revert w. induction ids as [|x xs IH]; intros w.
  - exists (Normal tt), w, 0, []. simpl.
    rewrite !app_nil_r.
    repeat split; auto; try lia; try congruence.
  - rewrite for_of_cons, delete_attempt_run.
    destruct (del x (store w)) as [[st d|e] s'] eqn:Hdel; simpl.
    + destruct (Z.eqb_spec st 200) as [->|Hst].
      * exists (Return true),
          (say (called w Delete x s')
               [TestLine (DeleteKind kind) true; DetailsLine (IdIs x)]),
          1, [TestLine (DeleteKind kind) true; DetailsLine (IdIs x)].
        simpl. repeat split; auto; try lia; try congruence.
        intros _ _. exists x, (store w), d. split; [now left | exact Hdel].
      * destruct (IH (called w Delete x s'))
          as (r & w' & n & ls & Hrun & Hr & Hn & _ & Hall & Hc & Hl & Hok).
        exists r, w', (S n), ls. rewrite Hrun. simpl in *.
        rewrite <- app_assoc in Hc.
        repeat split; auto; try lia.
        all: try (intros Hnorm; now rewrite (Hall Hnorm)).
        all: intros Hret Hq;
          destruct (Hok Hret Hq) as (c & s & d' & Hin & Hd);
          exists c, s, d'; (split; [now right | exact Hd]).
    + destruct (status_is e 404) eqn:H404.
      * exists (Return true),
          (say (called w Delete x s')
               [TestLine (DeleteKind kind) true;
                DetailsLine (AlreadyGone x)]),
          1, [TestLine (DeleteKind kind) true; DetailsLine (AlreadyGone x)].
        simpl. repeat split; auto; try lia; try congruence.
      * destruct (IH (say (called w Delete x s')
                        [DeleteAttemptFailed x (status_or e (message e))]))
          as (r & w' & n & ls & Hrun & Hr & Hn & _ & Hall & Hc & Hl & Hok).
        exists r, w', (S n),
          (DeleteAttemptFailed x (status_or e (message e)) :: ls).
        rewrite Hrun. simpl in *.
        rewrite <- app_assoc in Hc. rewrite <- app_assoc in Hl.
        repeat split; auto; try lia.
        all: try (intros Hnorm; now rewrite (Hall Hnorm)).
        all: intros Hret Hq;
          destruct (Hok Hret Hq) as (c & s & d' & Hin & Hd);
          exists c, s, d'; (split; [now right | exact Hd]).
Qed.

Lemma reasons_failure_lines ids errs :
  length ids = length errs ->
  reasons (failure_lines ids errs) = map reason_of errs.
Proof.
  revert errs. induction ids as [|x xs IH]; intros [|e errs] Hlen;
    simpl in *; try discriminate; [reflexivity|].
  f_equal. apply IH. lia.
Qed.

Lemma responses_length {I D} (m : I -> Store -> Settled D * Store) ids s :
  length (responses m ids s) = length ids.
Proof.
  revert s. induction ids as [|x xs IH]; intros s; simpl; [reflexivity|].
  destruct (m x s) as [r s']. simpl. now rewrite IH.
Qed.

(** When every id in turn is answered by an error other than 404, the
    loop runs to its end, having invoked delete on every id and
    printed one failure line per id, in order. *)
Lemma loop_all_errors (ids : list string) (errs : list Error)
    (w : World Store) :
  responses del ids (store w) = map Rejected errs ->
  Forall (fun e => status_is e 404 = false) errs ->
  exists w',
    for_of ids (delete_attempt kind del) w = (Normal tt, w') /\
    calls w' = calls w ++ map (on Delete) ids /\
    console w' = console w ++ failure_lines ids errs.
Proof.
  revert errs w. induction ids as [|x xs IH]; intros errs w Hresp Hall.
  - exists w. simpl. unfold failure_lines. simpl.
    rewrite !app_nil_r. auto.
  - simpl in Hresp. destruct (del x (store w)) as [r s'] eqn:Hdel.
    destruct errs as [|e errs]; [discriminate|].
    simpl in Hresp. injection Hresp as -> Hrest.
    inversion Hall as [|? ? H404 Hall']; subst.
    rewrite for_of_cons, delete_attempt_run, Hdel. simpl. rewrite H404.
    destruct (IH errs
                (say (called w Delete x s')
                     [DeleteAttemptFailed x (status_or e (message e))])
                Hrest Hall') as (w' & Hrun & Hc & Hl).
    exists w'. simpl in *.
    rewrite <- app_assoc in Hc. rewrite <- app_assoc in Hl.
    auto.
Qed.

End MediaLoop.

(** ** Short circuits of [safeDeleteDocument] *)

Section ShortCircuits.

Context {Store : Type}.
Variable kind : Kind.
Variable del : Method Store unit.
Variable unpub : option (Method Store unit).

Lemma deletes_app (cs cs' : list Call) :
  deletes (cs ++ cs') = deletes cs ++ deletes cs'.
Proof. unfold deletes. now rewrite filter_app, map_app. Qed.

Lemma unpublishes_app (cs cs' : list Call) :
  unpublishes (cs ++ cs') = unpublishes cs ++ unpublishes cs'.
Proof. unfold unpublishes. now rewrite filter_app, map_app. Qed.

Lemma deletes_Delete (ids : list string) :
  deletes (map (on Delete) ids) = map Js.VStr ids.
Proof.
  unfold deletes. induction ids as [|x xs IH]; simpl; congruence.
Qed.

Lemma deletes_pair_Delete (ids : list Js.value) :
  deletes (map (pair Delete) ids) = ids.
Proof.
  unfold deletes. induction ids as [|x xs IH]; simpl; congruence.
Qed.

Lemma unpublishes_pair_Delete (ids : list Js.value) :
  unpublishes (map (pair Delete) ids) = [].
Proof.
  unfold unpublishes. induction ids as [|x xs IH]; simpl; congruence.
Qed.

Lemma unpublishes_Delete (ids : list string) :
  unpublishes (map (on Delete) ids) = [].
Proof.
  unfold unpublishes. induction ids as [|x xs IH]; simpl; congruence.
Qed.

Lemma deletes_unpublish_calls itemId (u : option (Method Store unit)) :
  deletes (unpublish_calls itemId u) = [].
Proof. destruct u; reflexivity. Qed.

Lemma says_already_gone_app (ls ls' : list Line) :
  says_already_gone (ls ++ ls') =
  says_already_gone ls || says_already_gone ls'.
Proof. apply existsb_app. Qed.

Lemma reasons_app (ls ls' : list Line) :
  reasons (ls ++ ls') = reasons ls ++ reasons ls'.
Proof. apply flat_map_app. Qed.

(** The run when the first candidate, [itemId] itself, ends the loop. *)
Lemma first_attempt_returns itemId w (ls : list Line) :
  itemId <> EmptyString ->
  delete_attempt kind del itemId (unpublished kind itemId unpub w) =
    (Return true,
     say (called (unpublished kind itemId unpub w) Delete itemId
            (snd (del itemId (store_after_unpublish unpub itemId (store w)))))
         ls) ->
  exists w',
    safeDeleteDocument (Js.VStr itemId) kind del unpub w
    = (Normal (Some true), w') /\
    deletes (invoked w w') = [Js.VStr itemId] /\
    printed w w' = unpublish_says kind itemId unpub (store w) ++ ls /\
    store w' = snd (del itemId (store_after_unpublish unpub itemId (store w))).
Proof.
  intros Hne Hrun. eexists. split; [|split; [|split]].
  - apply safeDeleteDocument_returned; [assumption|].
    destruct (candidates_head itemId) as [rest ->].
    rewrite for_of_cons, Hrun. reflexivity.
  - erewrite invoked_app.
    2:{ simpl. rewrite unpublished_calls, <- app_assoc. reflexivity. }
    rewrite deletes_app, deletes_unpublish_calls. reflexivity.
  - apply printed_app. simpl.
    rewrite unpublished_console, <- app_assoc. reflexivity.
  - reflexivity.
Qed.

Lemma deletes_read_unpublish (a b : string) (cs : list Call) :
  deletes (on GetById a :: on Unpublish b :: cs) = deletes cs.
Proof. reflexivity. Qed.

(** The first candidate's delete resolves with status 200. *)
Lemma success_run (itemId : string) (w : World Store)
    (d : unit) (s' : Store) :
  itemId <> EmptyString ->
  del itemId (store_after_unpublish unpub itemId (store w))
    = (Resolved 200 d, s') ->
  exists w',
    safeDeleteDocument (Js.VStr itemId) kind del unpub w
    = (Normal (Some true), w') /\
    deletes (invoked w w') = [Js.VStr itemId] /\
    outcome true (printed w w') = Deleted /\
    store w' = s'.
Proof.
  intros Hne Hdel.
  destruct (first_attempt_returns itemId w
              [TestLine (DeleteKind kind) true; DetailsLine (IdIs itemId)]
              Hne) as (w' & Hrun & Hcalls & Hprinted & Hstore).
  { rewrite delete_attempt_run, unpublished_store, Hdel. reflexivity. }
  exists w'. rewrite Hcalls, Hprinted, Hstore, Hdel.
  repeat split; auto.
  unfold outcome. rewrite says_already_gone_app.
  destruct (unpublish_says_quiet kind itemId unpub (store w)) as [_ ->].
  reflexivity.
Qed.

(** The first candidate's delete is rejected with status 404. *)
Lemma not_found_run (itemId : string) (w : World Store)
    (e : Error) (s' : Store) :
  itemId <> EmptyString ->
  del itemId (store_after_unpublish unpub itemId (store w))
    = (Rejected e, s') ->
  status_is e 404 = true ->
  exists w',
    safeDeleteDocument (Js.VStr itemId) kind del unpub w
    = (Normal (Some true), w') /\
    deletes (invoked w w') = [Js.VStr itemId] /\
    outcome true (printed w w') = AlreadyAbsent /\
    In (TestLine (DeleteKind kind) true) (printed w w') /\
    reasons (printed w w') = [].
Proof.
  intros Hne Hdel H404.
  destruct (first_attempt_returns itemId w
              [TestLine (DeleteKind kind) true;
               DetailsLine (AlreadyGone itemId)]
              Hne) as (w' & Hrun & Hcalls & Hprinted & Hstore).
  { rewrite delete_attempt_run, unpublished_store, Hdel. simpl.
    rewrite H404. reflexivity. }
  exists w'. rewrite Hcalls, Hprinted.
  destruct (unpublish_says_quiet kind itemId unpub (store w)) as [Hr Hq].
  repeat split; auto.
  - unfold outcome. rewrite says_already_gone_app, Hq. reflexivity.
  - apply in_or_app. right. now left.
  - rewrite reasons_app, Hr. reflexivity.
Qed.

(** C4.  If the delete of the first candidate resolves with status 200
    (in the store the unpublish step left), [safeDeleteDocument]
    returns [true] with the outcome [Deleted], and delete was invoked
    exactly once, on that candidate. *)
Theorem short_circuit_on_success (itemId : string) (w : World Store)
    (d : unit) (s' : Store) :
  itemId <> EmptyString ->
  del itemId (store_after_unpublish unpub itemId (store w))
    = (Resolved 200 d, s') ->
  exists w',
    safeDeleteDocument (Js.VStr itemId) kind del unpub w
    = (Normal (Some true), w') /\
    hd_error (candidates itemId) = Some itemId /\
    deletes (invoked w w') = [Js.VStr itemId] /\
    length (deletes (invoked w w')) = 1 /\
    outcome true (printed w w') = Deleted /\
    store w' = s'.
Proof.
  intros Hne Hdel.
  destruct (success_run itemId w d s' Hne Hdel)
    as (w' & Hrun & Hcalls & Ho & Hstore).
  exists w'. rewrite Hcalls.
  destruct (candidates_head itemId) as [rest ->].
  repeat split; auto.
Qed.

(** C3.  If the delete of the first candidate is rejected with status
    404, [safeDeleteDocument] returns [true] at once, a success with
    the outcome [AlreadyAbsent], and no other candidate is tried. *)
Theorem short_circuit_on_not_found (itemId : string) (w : World Store)
    (e : Error) (s' : Store) :
  itemId <> EmptyString ->
  del itemId (store_after_unpublish unpub itemId (store w))
    = (Rejected e, s') ->
  status_is e 404 = true ->
  exists w',
    safeDeleteDocument (Js.VStr itemId) kind del unpub w
    = (Normal (Some true), w') /\
    hd_error (candidates itemId) = Some itemId /\
    deletes (invoked w w') = [Js.VStr itemId] /\
    outcome true (printed w w') = AlreadyAbsent /\
    In (TestLine (DeleteKind kind) true) (printed w w') /\
    reasons (printed w w') = [].
Proof.
  intros Hne Hdel H404.
  destruct (not_found_run itemId w e s' Hne Hdel H404)
    as (w' & Hrun & Hcalls & Ho & Hin & Hr).
  exists w'.
  destruct (candidates_head itemId) as [rest ->].
  repeat split; auto.
Qed.

(** C10.  A falsy [itemId] makes [safeDeleteDocument] return [false]
    at once: the world is untouched, and neither unpublish nor delete
    was invoked. *)
Theorem falsy_itemId_returns_false (itemId : Js.value) (w : World Store) :
  Js.truthy itemId = false ->
  exists w',
    safeDeleteDocument itemId kind del unpub w = (Normal (Some false), w') /\
    w' = w /\
    unpublishes (invoked w w') = [] /\
    deletes (invoked w w') = [].
Proof.
  intros Hfalsy. exists w. split; [|split; [reflexivity|]].
  - unfold safeDeleteDocument. rewrite Hfalsy. reflexivity.
  - rewrite (invoked_app w w []) by now rewrite app_nil_r.
    split; reflexivity.
Qed.

End ShortCircuits.

(** ** Runs of [safeDeletePage] *)

Section PageRuns.

Context {Store : Type}.
Variable api : PagesApi Store.

Local Opaque TypeError published_marker draft_marker.

Lemma page_reasons_app (ls ls' : list Line) :
  page_reasons (ls ++ ls') = page_reasons ls ++ page_reasons ls'.
Proof. apply flat_map_app. Qed.

Ltac settle_console :=
  simpl; rewrite <- ?app_assoc; simpl.

(** The [try] block reads the page, unpublishes it and invokes delete
    on the first id, whatever the read and the unpublish answered; it
    ends as the first delete decides. *)
Lemma try_block_run (pageId pageName : string) (w : World Store) :
  let first := page_first_id (page_data api pageId (store w)) pageId in
  let s0 := store_before_delete api pageId (store w) in
  exists r w' ls,
    try_block api pageId pageName w = (r, w') /\
    calls w' = calls w ++ [on GetById pageId; on Unpublish pageId;
                           (Delete, first)] /\
    store w' = snd (pageDeleteById api first s0) /\
    console w' = console w ++ ls /\
    page_reasons ls = [] /\
    r = match fst (pageDeleteById api first s0) with
        | Resolved st _ => Return (st =? 200)%Z
        | Rejected e => Throw e
        end.
Proof.
  unfold try_block, read_page, first_deleteId, store_before_delete,
    page_first_id, page_data.
  run_js.
  destruct (pageGetById api pageId (store w))
    as [[st0 [n0|[[|] a0 i0]]|e0] s1]; simpl;
    destruct (pageUnpublishById api pageId s1) as [[st1 u1|e1] s2]; simpl.
  all: try destruct (Js.includes published_marker pageId); simpl.
  all: match goal with
       | |- context [pageDeleteById api ?i ?s] =>
           destruct (pageDeleteById api i s) as [[st2 u2|e2] s3]; simpl
       end.
  all: try destruct (st2 =? 200)%Z; simpl.
  all: do 3 eexists; split; [reflexivity|]; settle_console;
    repeat split; reflexivity.
Qed.

Ltac catch_post b n :=
  exists b; eexists; exists n; eexists;
  split; [reflexivity|]; settle_console;
  split; [lia|];
  split; [first [reflexivity | now rewrite app_nil_r]|];
  split; [reflexivity|];
  let H := fresh "H" in
  intros [|? [|? [|? ?]]] H; simpl in H; try discriminate H; try congruence;
  try (injection H; intros; subst); auto.

(** The [catch] block tries the alternatives in order, and only those;
    it ends by [return true] at the first that resolves with status
    200 and by [return false] otherwise, with one message per
    alternative that was rejected. *)
Lemma catch_block_shape (pageId pageName : string) (deleteError : Error)
    (w : World Store) :
  let alts := map Js.VStr (page_alternatives pageId) in
  exists b w' n ls,
    catch_block api pageId pageName deleteError w = (Return b, w') /\
    n <= length alts /\
    calls w' = calls w ++ map (pair Delete) (firstn n alts) /\
    console w' = console w
                 ++ FirstDeleteAttemptFailed (message deleteError) :: ls /\
    (forall errs,
        responses (pageDeleteById api) alts (store w) = map Rejected errs ->
        b = false /\ n = length alts /\
        page_reasons ls = map message errs).
Proof.
  unfold catch_block, page_alternatives. run_js.
  destruct (Js.includes published_marker pageId); simpl.
  all: repeat match goal with
       | |- context [pageDeleteById api ?i ?s] =>
           destruct (pageDeleteById api i s) as [[? ?|?] ?]; simpl
       | |- context [(?z =? 200)%Z] => destruct (z =? 200)%Z eqn:?; simpl
       | |- context [response ?e] => destruct (response e); simpl
       end.
  all: first [ catch_post true 1 | catch_post true 2
             | catch_post false 2 | catch_post false 0 ].
Qed.

(** The shape of every run of [safeDeletePage]: it returns a boolean;
    it reads the page, unpublishes it, and invokes delete on a
    non-empty prefix of the candidate ids; a first delete that
    resolves ends the run, with [true] exactly for status 200; and
    when every candidate is rejected the result is [false], with one
    failure message printed per candidate, in order. *)
Lemma page_shape (pageId pageName : string) (w : World Store) :
  let data := page_data api pageId (store w) in
  let cands := page_candidates data pageId in
  let s0 := store_before_delete api pageId (store w) in
  exists n b w' ls,
    safeDeletePage api pageId pageName w = (Normal (Some b), w') /\
    calls w' = calls w ++ on GetById pageId :: on Unpublish pageId
                           :: map (pair Delete) (firstn n cands) /\
    console w' = console w ++ ls /\
    1 <= n <= length cands /\
    (forall st d s',
        pageDeleteById api (page_first_id data pageId) s0
        = (Resolved st d, s') ->
        n = 1 /\ b = (st =? 200)%Z) /\
    (forall errs,
        responses (pageDeleteById api) cands s0 = map Rejected errs ->
        b = false /\ n = length cands /\
        page_reasons ls = map message errs).
Proof.
  intros data cands s0.
  destruct (try_block_run pageId pageName w)
    as (r & w1 & ls1 & Htry & Hc1 & Hs1 & Hl1 & Hr1 & Hend).
  fold data in Hc1, Hs1, Hend. fold s0 in Hs1, Hend.
  unfold safeDeletePage, call_function, try_catch. rewrite Htry.
  unfold cands, page_candidates. simpl responses.
  destruct (pageDeleteById api (page_first_id data pageId) s0)
    as [[st d|e] s'] eqn:Hdel; simpl in Hend, Hs1; subst r.
  - exists 1, (st =? 200)%Z, w1, ls1.
    split; [reflexivity|]. split; [exact Hc1|]. split; [exact Hl1|].
    simpl. split; [lia|]. split.
    + intros st' d' s'' H. injection H as <- _ _. auto.
    + intros [|? ?] H; discriminate H.
  - destruct (catch_block_shape pageId pageName e w1)
      as (b & w2 & n & ls2 & Hcatch & Hn & Hc2 & Hl2 & Herr).
    rewrite Hcatch.
    exists (S n), b, w2,
      (ls1 ++ FirstDeleteAttemptFailed (message e) :: ls2).
    split; [reflexivity|]. split.
    { rewrite Hc2, Hc1, <- app_assoc. reflexivity. }
    split.
    { rewrite Hl2, Hl1, <- app_assoc. reflexivity. }
    simpl. split; [lia|]. split.
    + intros st' d' s'' H. discriminate H.
    + intros [|e1 errs] H; [discriminate H|].
      simpl in H. injection H as <- Hrest.
      rewrite Hs1 in Herr.
      destruct (Herr errs Hrest) as (-> & -> & Hreasons).
      rewrite page_reasons_app, Hr1. simpl. rewrite Hreasons. auto.
Qed.

End PageRuns.

(** ** Every run of [safeDeleteDocument] *)

Section MediaShape.

Context {Store : Type}.
Variable kind : Kind.
Variable del : Method Store unit.
Variable unpub : option (Method Store unit).

(** A truthy [itemId]: the function returns a boolean; it invoked
    unpublish (when given) and then delete on a non-empty prefix of
    the candidates; [false] means every candidate was tried; [true]
    without the "already gone" line means some delete resolved with
    status 200 and left the final store. *)
Lemma media_shape (itemId : string) (w : World Store) :
  itemId <> EmptyString ->
  exists b w' n ls,
    safeDeleteDocument (Js.VStr itemId) kind del unpub w
    = (Normal (Some b), w') /\
    1 <= n <= length (candidates itemId) /\
    calls w' = calls w ++ unpublish_calls itemId unpub
               ++ map (on Delete) (firstn n (candidates itemId)) /\
    console w' = console w ++ unpublish_says kind itemId unpub (store w)
                 ++ ls /\
    (b = false -> n = length (candidates itemId)) /\
    (b = true -> says_already_gone ls = false ->
     exists c s d, In c (candidates itemId) /\
                   del c s = (Resolved 200 d, store w')).
Proof.
  intros Hne.
  destruct (loop_shape kind del (candidates itemId)
              (unpublished kind itemId unpub w))
    as (r & w2 & n & ls & Hrun & Hr & Hn & Hpos & Hall & Hc & Hl & Hok).
  rewrite unpublished_calls, <- app_assoc in Hc.
  rewrite unpublished_console, <- app_assoc in Hl.
  assert (Hcands : candidates itemId <> []).
  { destruct (candidates_head itemId) as [rest ->]. discriminate. }
  destruct Hr as [-> | ->].
  - exists false, (say w2 [MayBeProtected kind]), n,
      (ls ++ [MayBeProtected kind]).
    split; [now apply safeDeleteDocument_exhausted|].
    simpl. rewrite Hl, <- !app_assoc.
    repeat split; auto; try discriminate.
  - exists true, w2, n, ls.
    split; [now apply safeDeleteDocument_returned|].
    repeat split; auto; try discriminate.
Qed.

(** Whatever [itemId] is, the function returns a boolean. *)
Lemma safeDeleteDocument_total (itemId : Js.value) (w : World Store) :
  exists b w',
    safeDeleteDocument itemId kind del unpub w = (Normal (Some b), w').
Proof.
  destruct (Js.truthy itemId) eqn:Ht.
  - destruct itemId as [| |s]; try discriminate Ht.
    simpl in Ht. apply negb_true_iff, String.eqb_neq in Ht.
    destruct (media_shape s w Ht) as (b & w' & _ & _ & Hrun & _).
    eauto.
  - exists false, w. unfold safeDeleteDocument. rewrite Ht. reflexivity.
Qed.

(** All candidates answered by errors other than 404. *)
Lemma media_all_errors (itemId : string) (w : World Store)
    (errs : list Error) :
  itemId <> EmptyString ->
  responses del (candidates itemId)
    (store_after_unpublish unpub itemId (store w)) = map Rejected errs ->
  Forall (fun e => status_is e 404 = false) errs ->
  exists w',
    safeDeleteDocument (Js.VStr itemId) kind del unpub w
    = (Normal (Some false), w') /\
    deletes (invoked w w') = map Js.VStr (candidates itemId) /\
    reasons (printed w w') = map reason_of errs /\
    length (reasons (printed w w')) = length (candidates itemId).
Proof.
  intros Hne Hresp Hall.
  assert (Hlen : length (candidates itemId) = length errs).
  { rewrite <- (responses_length del (candidates itemId)
                  (store_after_unpublish unpub itemId (store w))).
    rewrite Hresp. apply length_map. }
  rewrite <- unpublished_store with (kind := kind) in Hresp.
  destruct (loop_all_errors kind del _ _ _ Hresp Hall)
    as (w2 & Hrun & Hc & Hl).
  exists (say w2 [MayBeProtected kind]).
  split; [now apply safeDeleteDocument_exhausted|].
  rewrite unpublished_calls, <- app_assoc in Hc.
  rewrite unpublished_console, <- app_assoc in Hl.
  assert (Hp : printed w (say w2 [MayBeProtected kind]) =
               unpublish_says kind itemId unpub (store w)
               ++ failure_lines (candidates itemId) errs
               ++ [MayBeProtected kind]).
  { apply printed_app. simpl. rewrite Hl, <- !app_assoc. reflexivity. }
  assert (Hreasons : reasons (printed w (say w2 [MayBeProtected kind]))
                     = map reason_of errs).
  { rewrite Hp, !reasons_app.
    destruct (unpublish_says_quiet kind itemId unpub (store w)) as [-> _].
    rewrite reasons_failure_lines by exact Hlen.
    simpl. now rewrite app_nil_r. }
  split; [|split].
  - erewrite invoked_app by (simpl; exact Hc).
    rewrite deletes_app, deletes_unpublish_calls, deletes_Delete.
    reflexivity.
  - exact Hreasons.
  - rewrite Hreasons, length_map. now symmetry.
Qed.

End MediaShape.

(** ** The cleanup loop *)

Section Cleanup.

Context {Store : Type}.
Variable mediaApi : MediaApi Store.

Lemma known_truthy (v : Js.value) (s : string) :
  known v = Some s <-> v = Js.VStr s /\ s <> EmptyString.
Proof.
  destruct v as [| |t]; simpl; try (split; [discriminate | intros [H _]; discriminate]).
  destruct (String.eqb_spec t EmptyString) as [->|Hne]; split.
  - discriminate.
  - intros [H Hne]. injection H as <-. now elim Hne.
  - intros H. injection H as <-. auto.
  - intros [H _]. injection H as <-. reflexivity.
Qed.

Lemma known_None (v : Js.value) : known v = None <-> Js.truthy v = false.
Proof.
  destruct v as [| |t]; simpl; try tauto.
  destruct (t =? EmptyString); simpl; split; congruence.
Qed.

Lemma firstn_incl {A} (n : nat) (l : list A) (x : A) :
  In x (firstn n l) -> In x l.
Proof.
  revert l. induction n as [|n IH]; intros [|a l]; simpl; try tauto.
  intros [H | H]; auto.
Qed.

(** Retiring one item always returns a boolean; unpublish was invoked
    on the item's id when it is truthy and not at all otherwise, and
    the deletes are a prefix of the candidates of that id. *)
Lemma retire_shape (it : Created) (w : World Store) :
  exists b w' cs,
    retire mediaApi it w = (Normal (Some b), w') /\
    calls w' = calls w ++ cs /\
    unpublishes cs = unpublish_target it /\
    (forall s, known (itemId_of it) = Some s ->
       exists n, 1 <= n /\ deletes cs = map Js.VStr (firstn n (candidates s))).
Proof.
  unfold retire, unpublish_target.
  destruct (known (itemId_of it)) as [s|] eqn:Hk.
  - apply known_truthy in Hk. destruct Hk as [-> Hne].
    destruct (media_shape (type it) (del_of mediaApi (type it))
                (Some (unpub_of mediaApi (type it))) s w Hne)
      as (b & w' & n & ls & Hrun & Hn & Hc & _).
    exists b, w'. eexists. split; [exact Hrun|]. split; [exact Hc|].
    split.
    + rewrite unpublishes_app, unpublishes_Delete. reflexivity.
    + intros s' Hs'. injection Hs' as <-. exists n.
      split; [lia|]. rewrite deletes_app, deletes_Delete. reflexivity.
  - apply known_None in Hk. exists false, w, [].
    split; [|split; [now rewrite app_nil_r | split; [reflexivity|]]].
    + unfold safeDeleteDocument. rewrite Hk. reflexivity.
    + discriminate.
Qed.

(** The loop retires every item: no item makes it stop. *)
Lemma cleanup_loop (items : list Created) (w : World Store) :
  exists w' cs,
    for_of items (fun it => _ <- retire mediaApi it ;; wait 300) w
    = (Normal tt, w') /\
    calls w' = calls w ++ cs /\
    unpublishes cs = flat_map unpublish_target items.
Proof.
  revert w. induction items as [|it items IH]; intros w.
  - exists w, []. simpl. rewrite app_nil_r. auto.
  - destruct (retire_shape it w) as (b & w1 & cs1 & Hrun & Hc1 & Hu1 & _).
    destruct (IH w1) as (w' & cs & Hloop & Hc & Hu).
    exists w', (cs1 ++ cs).
    rewrite for_of_cons. unfold bind at 1. rewrite Hrun. simpl.
    split; [exact Hloop|]. split.
    + rewrite Hc, Hc1. now rewrite app_assoc.
    + rewrite unpublishes_app, Hu1, Hu. reflexivity.
Qed.

End Cleanup.

(** ** The resolver's contract, on both helpers *)

Section Contract.

Context {Store : Type}.

(** C2.  When every one of the N candidates is answered by an error,
    the helper returns [false], the outcome is [Failed], and exactly N
    reasons were printed, one per candidate, in candidate order.  For
    [safeDeleteDocument] an error is a rejection other than 404 and the
    reason is [e.response?.status || e.message]; for [safeDeletePage]
    it is any rejection and the reason is [e.message]. *)
Theorem failure_aggregation
    (kind : Kind) (del : Method Store unit)
    (unpub : option (Method Store unit)) (itemId : string)
    (pagesApi : PagesApi Store) (pageId pageName : string)
    (w : World Store) (errs pageErrs : list Error) :
  (itemId <> EmptyString ->
   responses del (candidates itemId)
     (store_after_unpublish unpub itemId (store w)) = map Rejected errs ->
   Forall (fun e => status_is e 404 = false) errs ->
   exists w',
     safeDeleteDocument (Js.VStr itemId) kind del unpub w
     = (Normal (Some false), w') /\
     deletes (invoked w w') = map Js.VStr (candidates itemId) /\
     outcome false (printed w w') = Failed (map reason_of errs) /\
     length (map reason_of errs) = length (candidates itemId))
  /\
  (let cands := page_candidates (page_data pagesApi pageId (store w)) pageId in
   responses (pageDeleteById pagesApi) cands
     (store_before_delete pagesApi pageId (store w))
   = map Rejected pageErrs ->
   exists w',
     safeDeletePage pagesApi pageId pageName w = (Normal (Some false), w') /\
     deletes (invoked w w') = cands /\
     page_reasons (printed w w') = map message pageErrs /\
     length (map message pageErrs) = length cands).
Proof.
  split.
  - intros Hne Hresp Hall.
    destruct (media_all_errors kind del unpub itemId w errs Hne Hresp Hall)
      as (w' & Hrun & Hd & Hr & Hlen).
    exists w'. unfold outcome. rewrite Hr in *. auto.
  - intros cands Hresp.
    destruct (page_shape pagesApi pageId pageName w)
      as (n & b & w' & ls & Hrun & Hc & Hl & Hn & _ & Herr).
    destruct (Herr pageErrs Hresp) as (-> & -> & Hreasons).
    exists w'. split; [exact Hrun|].
    rewrite (printed_app _ _ _ Hl), (invoked_app _ _ _ Hc).
    rewrite firstn_all, deletes_read_unpublish, deletes_pair_Delete.
    repeat split; auto.
    rewrite length_map, <- (length_map (@Rejected unit) pageErrs), <- Hresp.
    apply responses_length.
Qed.

(** C5.  Whatever the unpublish request answers ([r] is arbitrary:
    resolved, rejected with 404, rejected otherwise), the helper goes
    on to invoke delete on its first candidate, and when that delete
    resolves with status 200 it returns [true], the outcome
    [Deleted]. *)
Theorem unpublish_never_blocks
    (kind : Kind) (del unpub : Method Store unit) (itemId : string)
    (pagesApi : PagesApi Store) (pageId pageName : string)
    (w : World Store) :
  (forall (r : Settled unit) (s1 : Store),
     itemId <> EmptyString ->
     unpub itemId (store w) = (r, s1) ->
     exists b w' rest,
       safeDeleteDocument (Js.VStr itemId) kind del (Some unpub) w
       = (Normal (Some b), w') /\
       invoked w w' = on Unpublish itemId :: on Delete itemId :: rest /\
       hd_error (printed w w') = Some (unpublish_line kind r) /\
       (forall d s', del itemId s1 = (Resolved 200 d, s') ->
          b = true /\ outcome true (printed w w') = Deleted))
  /\
  (forall (r : Settled unit) (s1 : Store),
     pageUnpublishById pagesApi pageId
       (snd (pageGetById pagesApi pageId (store w))) = (r, s1) ->
     let first := page_first_id (page_data pagesApi pageId (store w)) pageId in
     exists b w' rest,
       safeDeletePage pagesApi pageId pageName w = (Normal (Some b), w') /\
       invoked w w' = on GetById pageId :: on Unpublish pageId
                      :: (Delete, first) :: rest /\
       (forall d s', pageDeleteById pagesApi first s1 = (Resolved 200 d, s') ->
          b = true)).
Proof.
  split.
  - intros r s1 Hne Hu.
    destruct (media_shape kind del (Some unpub) itemId w Hne)
      as (b & w' & n & ls & Hrun & Hn & Hc & Hl & _).
    destruct (candidates_head itemId) as [tail Htail].
    rewrite Htail in Hc, Hn.
    destruct n as [|n]; [lia|]. simpl in Hc, Hl. rewrite Hu in Hl.
    exists b, w', (map (on Delete) (firstn n tail)).
    split; [exact Hrun|].
    rewrite (invoked_app _ _ _ Hc), (printed_app _ _ _ Hl).
    split; [reflexivity|]. split; [reflexivity|].
    intros d s' Hdel.
    destruct (success_run kind del (Some unpub) itemId w d s' Hne)
      as (w2 & Hrun2 & _ & Ho & _).
    { simpl. now rewrite Hu. }
    rewrite Hrun in Hrun2. injection Hrun2 as Hb Hw. subst b w2.
    rewrite (printed_app _ _ _ Hl) in Ho. auto.
  - intros r s1 Hu first.
    destruct (page_shape pagesApi pageId pageName w)
      as (n & b & w' & ls & Hrun & Hc & Hl & Hn & Hres & _).
    unfold page_candidates in Hc, Hn. fold first in Hc, Hres.
    destruct n as [|n]; [lia|]. simpl in Hc.
    exists b, w',
      (map (pair Delete)
         (firstn n (map Js.VStr (page_alternatives pageId)))).
    split; [exact Hrun|]. split; [exact (invoked_app _ _ _ Hc)|].
    intros d s' Hdel.
    unfold store_before_delete in Hres. rewrite Hu in Hres.
    now destruct (Hres _ _ _ Hdel) as [_ ->].
Qed.

End Contract.

Section Order.

Context {Store : Type}.

(** C6.  When the created item's [aposDocId] is set, the cleanup
    invokes delete on it first; the deletes that follow are on
    candidates derived from it.  In [safeDeletePage], when the read
    returned the page, the first delete is on its [aposDocId], before
    the draft and base ids. *)
Theorem aposDocId_tried_first
    (mediaApi : MediaApi Store) (it : Created) (a : string)
    (pagesApi : PagesApi Store) (pageId pageName : string) (d : PageData)
    (w : World Store) :
  (known (aposDocId it) = Some a ->
   exists b w' rest,
     retire mediaApi it w = (Normal (Some b), w') /\
     deletes (invoked w w') = Js.VStr a :: rest /\
     (exists n, Js.VStr a :: rest = map Js.VStr (firstn n (candidates a))))
  /\
  (page_data pagesApi pageId (store w) = Some d ->
   exists b w' rest,
     safeDeletePage pagesApi pageId pageName w = (Normal (Some b), w') /\
     deletes (invoked w w') = page_aposDocId d :: rest /\
     (forall c, In c rest -> In c (map Js.VStr (page_alternatives pageId)))).
Proof.
  split.
  - intros Ha.
    assert (Hitem : known (itemId_of it) = Some a).
    { unfold itemId_of, Js.or.
      destruct (known_truthy (aposDocId it) a) as [Hk _].
      destruct (Hk Ha) as [Heq Hne]. rewrite Heq. simpl.
      apply String.eqb_neq in Hne. rewrite Hne. simpl.
      now rewrite Hne. }
    destruct (retire_shape mediaApi it w)
      as (b & w' & cs & Hrun & Hc & _ & Hd).
    destruct (Hd a Hitem) as (n & Hn & Hdel).
    destruct (candidates_head a) as [tail Htail].
    destruct n as [|n]; [lia|].
    exists b, w', (map Js.VStr (firstn n tail)).
    split; [exact Hrun|].
    rewrite (invoked_app _ _ _ Hc), Hdel, Htail.
    split; [reflexivity|]. exists (S n). reflexivity.
  - intros Hdata.
    destruct (page_shape pagesApi pageId pageName w)
      as (n & b & w' & ls & Hrun & Hc & _ & Hn & _).
    rewrite Hdata in Hc. unfold page_candidates in Hc. simpl in Hc.
    destruct n as [|n]; [lia|]. simpl in Hc.
    exists b, w', (firstn n (map Js.VStr (page_alternatives pageId))).
    split; [exact Hrun|].
    rewrite (invoked_app _ _ _ Hc), deletes_read_unpublish.
    change (deletes ((Delete, page_aposDocId d) :: ?cs))
      with (page_aposDocId d :: deletes cs).
    rewrite deletes_pair_Delete.
    split; [reflexivity|]. intros c. apply firstn_incl.
Qed.

(** C8.  Both helpers always return a boolean to their caller (the
    completion is never a throw), for every id and every behaviour of
    the client methods; and the cleanup loop of the media script runs
    to its end, having retired every created item. *)
Theorem never_throws :
  (forall (itemId : Js.value) (kind : Kind) (del : Method Store unit)
          (unpub : option (Method Store unit)) (w : World Store),
     exists b w',
       safeDeleteDocument itemId kind del unpub w = (Normal (Some b), w'))
  /\
  (forall (pagesApi : PagesApi Store) (pageId pageName : string)
          (w : World Store),
     exists b w',
       safeDeletePage pagesApi pageId pageName w = (Normal (Some b), w'))
  /\
  (forall (mediaApi : MediaApi Store) (created : list Created)
          (w : World Store),
     exists w',
       cleanup mediaApi created w = (Normal tt, w') /\
       unpublishes (invoked w w')
       = flat_map unpublish_target (rev created)).
Proof.
  split; [|split].
  - intros. apply safeDeleteDocument_total.
  - intros pagesApi pageId pageName w.
    destruct (page_shape pagesApi pageId pageName w)
      as (n & b & w' & ls & Hrun & _). eauto.
  - intros mediaApi created w. unfold cleanup.
    destruct (cleanup_loop mediaApi (rev created) w)
      as (w' & cs & Hrun & Hc & Hu).
    exists w'. split; [exact Hrun|].
    now rewrite (invoked_app _ _ _ Hc).
Qed.

(** C9.  In [safeDeletePage] the draft and base ids are tried only
    when [pageId] contains [:en:published].  Without the marker there
    is exactly one delete invocation, and the result is [true] exactly
    when that delete resolved with status 200: a failed first attempt
    ends the run with [false]. *)
Theorem alternatives_need_marker
    (pagesApi : PagesApi Store) (pageId pageName : string)
    (w : World Store) :
  let first := page_first_id (page_data pagesApi pageId (store w)) pageId in
  let s0 := store_before_delete pagesApi pageId (store w) in
  exists b w',
    safeDeletePage pagesApi pageId pageName w = (Normal (Some b), w') /\
    hd_error (deletes (invoked w w')) = Some first /\
    (forall alt, In alt (tl (deletes (invoked w w'))) ->
       Js.includes published_marker pageId = true /\
       (alt = Js.VStr (Js.replace published_marker draft_marker pageId) \/
        alt = Js.VStr (Js.split0 ":"%char pageId))) /\
    (Js.includes published_marker pageId = false ->
     deletes (invoked w w') = [first] /\
     length (deletes (invoked w w')) = 1 /\
     (b = true <->
      exists d s', pageDeleteById pagesApi first s0 = (Resolved 200 d, s'))).
Proof.
  intros first s0.
  destruct (page_shape pagesApi pageId pageName w)
    as (n & b & w' & ls & Hrun & Hc & _ & Hn & Hres & Herr).
  fold first in Hres. fold s0 in Hres, Herr.
  unfold page_candidates in Hc, Hn, Herr. fold first in Hc, Herr.
  destruct n as [|n]; [lia|]. simpl in Hc, Hn.
  exists b, w'. split; [exact Hrun|].
  rewrite (invoked_app _ _ _ Hc), deletes_read_unpublish.
  change (deletes ((Delete, first) :: ?cs)) with (first :: deletes cs).
  rewrite deletes_pair_Delete. simpl.
  split; [reflexivity|]. split.
  - intros alt Hin. apply firstn_incl in Hin.
    unfold page_alternatives in Hin.
    destruct (Js.includes published_marker pageId); [|contradiction].
    split; [reflexivity|].
    destruct Hin as [<- | [<- | []]]; auto.
  - intros Hno. unfold page_alternatives in *. rewrite Hno in *.
    simpl. rewrite firstn_nil. repeat split.
    + intros ->.
      destruct (pageDeleteById pagesApi first s0) as [[st d|e] s'] eqn:Hdel.
      * destruct (Hres st d s' eq_refl) as [_ Hb].
        symmetry in Hb. apply Z.eqb_eq in Hb. subst st. eauto.
      * destruct (Herr [e]) as [Hb _]; [|discriminate Hb].
        simpl. now rewrite Hdel.
    + intros (d & s' & Hdel).
      now destruct (Hres _ _ _ Hdel) as [_ ->].
Qed.

End Order.

(** ** Retiring twice *)

Section Idempotence.

Context {Store : Type}.
Variable kind : Kind.
Variable del : Method Store unit.
Variable unpub : option (Method Store unit).
Variable itemId : string.

(** What the scripts expect of the store behind the client, for the
    resource the candidates of [itemId] name: [gone s] says that it is
    no longer in [s].  A delete that resolves with status 200 on a
    candidate removes it.  Once it is gone it stays gone under delete
    and unpublish, no delete on a candidate resolves with status 200,
    and the store recognises at least one candidate, whose delete it
    rejects with 404. *)
Variable gone : Store -> Prop.

Hypothesis delete_removes :
  forall c s d s',
    In c (candidates itemId) -> del c s = (Resolved 200 d, s') -> gone s'.

Hypothesis gone_stays_gone :
  forall c s,
    In c (candidates itemId) -> gone s ->
    gone (snd (del c s)) /\
    (forall st d, fst (del c s) = Resolved st d -> st <> 200%Z).

Hypothesis gone_is_not_found :
  exists c,
    In c (candidates itemId) /\
    forall s, gone s ->
      exists e, fst (del c s) = Rejected e /\ status_is e 404 = true.

Hypothesis unpublish_keeps_gone :
  forall s, gone s -> gone (store_after_unpublish unpub itemId s).

(** On a store where the resource is gone, the loop ends at the first
    candidate the store answers with 404. *)
Lemma loop_on_gone (ids : list string) (w : World Store) :
  (forall c, In c ids -> In c (candidates itemId)) ->
  gone (store w) ->
  (exists c, In c ids /\
     forall s, gone s ->
       exists e, fst (del c s) = Rejected e /\ status_is e 404 = true) ->
  exists w' ls,
    for_of ids (delete_attempt kind del) w = (Return true, w') /\
    console w' = console w ++ ls /\
    says_already_gone ls = true.
Proof.
  revert w. induction ids as [|x xs IH]; intros w Hsub Hgone Hrec.
  - destruct Hrec as (c & [] & _).
  - assert (Hx : In x (candidates itemId)) by (apply Hsub; now left).
    assert (Hxs : forall c, In c xs -> In c (candidates itemId))
      by (intros c Hc; apply Hsub; now right).
    destruct (gone_stays_gone x (store w) Hx Hgone) as [Hkeep Hnot200].
    rewrite for_of_cons, delete_attempt_run.
    destruct (del x (store w)) as [[st d|e] s'] eqn:Hdel; simpl in *.
    + destruct (Z.eqb_spec st 200) as [->|_];
        [now elim (Hnot200 200%Z d eq_refl)|].
      destruct (IH (called w Delete x s') Hxs Hkeep) as (w' & ls & H).
      { destruct Hrec as (c & [<- | Hc] & Hnf); [|eauto].
        destruct (Hnf (store w) Hgone) as (e & He & _).
        rewrite Hdel in He. discriminate He. }
      exists w', ls. exact H.
    + destruct (status_is e 404) eqn:H404.
      * eexists _, _. split; [reflexivity|]. split; reflexivity.
      * destruct (IH (say (called w Delete x s')
                        [DeleteAttemptFailed x (status_or e (message e))])
                    Hxs Hkeep) as (w' & ls & Hrun & Hl & Hq).
        { destruct Hrec as (c & [<- | Hc] & Hnf); [|eauto].
          destruct (Hnf (store w) Hgone) as (e' & He & He404).
          rewrite Hdel in He. simpl in He. injection He as <-.
          congruence. }
        exists w', (DeleteAttemptFailed x (status_or e (message e)) :: ls).
        simpl in Hl. rewrite <- app_assoc in Hl. auto.
Qed.

(** C7.  If a first call returned [true] with the outcome [Deleted],
    a second call on the same id, from the world the first call left,
    returns [true] with the outcome [AlreadyAbsent]. *)
Theorem retire_twice (w w1 : World Store) :
  itemId <> EmptyString ->
  safeDeleteDocument (Js.VStr itemId) kind del unpub w
    = (Normal (Some true), w1) ->
  outcome true (printed w w1) = Deleted ->
  exists w2,
    safeDeleteDocument (Js.VStr itemId) kind del unpub w1
    = (Normal (Some true), w2) /\
    outcome true (printed w1 w2) = AlreadyAbsent.
Proof.
  intros Hne Hfirst Hdeleted.
  destruct (media_shape kind del unpub itemId w Hne)
    as (b & w' & n & ls & Hrun & _ & _ & Hl & _ & Hok).
  rewrite Hfirst in Hrun. injection Hrun as Hb Hw. subst b w'.
  rewrite (printed_app _ _ _ Hl) in Hdeleted.
  unfold outcome in Hdeleted.
  rewrite says_already_gone_app in Hdeleted.
  destruct (unpublish_says_quiet kind itemId unpub (store w)) as [_ Hq].
  rewrite Hq in Hdeleted. simpl in Hdeleted.
  destruct (says_already_gone ls) eqn:Hls; [discriminate Hdeleted|].
  destruct (Hok eq_refl eq_refl) as (c & s & d & Hin & Hdel).
  pose proof (delete_removes c s d (store w1) Hin Hdel) as Hgone.
  apply unpublish_keeps_gone in Hgone.
  rewrite <- unpublished_store with (kind := kind) in Hgone.
  destruct (loop_on_gone (candidates itemId)
              (unpublished kind itemId unpub w1)
              (fun c H => H) Hgone gone_is_not_found)
    as (w2 & ls2 & Hrun2 & Hl2 & Hq2).
  exists w2. split; [now apply safeDeleteDocument_returned|].
  rewrite unpublished_console, <- app_assoc in Hl2.
  rewrite (printed_app _ _ _ Hl2). unfold outcome.
  rewrite says_already_gone_app, Hq2. now rewrite orb_true_r.
Qed.

End Idempotence.

(** ** The candidate set of a created item *)

Section CandidatesOfItem.

Context {Store : Type}.

(** C1, as the code has it.  In the media script the id handed to the
    resolver is the item's [aposDocId] when it is known and its [id]
    otherwise, and the candidates are that id in its original form,
    then that id with its first [:en:published] rewritten to
    [:en:draft], then the part of that id before its first colon,
    duplicates removed keeping first occurrences.  The sequence is never
    empty and starts with the id itself, so when [aposDocId] is not
    known the item's [id] in its original form is the first candidate
    tried.  In [safeDeletePage] the first candidate is, when the read
    resolved with truthy data, the [aposDocId] field of that data,
    whatever it holds ([undefined] when the data has no such field);
    when the read was rejected or resolved with falsy data ([undefined],
    [null], an empty body), it is the bare id when [pageId] has the
    published marker and [pageId] itself when it has not.  The draft form and the bare id follow only when
    [pageId] has the marker, and duplicates are kept.  In both helpers
    the deletes of a run are a non-empty prefix of the sequence. *)
Theorem candidate_sequence
    (mediaApi : MediaApi Store) (it : Created) (itemId : string)
    (pagesApi : PagesApi Store) (pageId pageName : string)
    (w : World Store) :
  (known (itemId_of it) = Some itemId ->
   (forall a, known (aposDocId it) = Some a -> itemId = a) /\
   (known (aposDocId it) = None -> id it = Js.VStr itemId) /\
   candidates itemId
   = first_occurrences
       [ itemId;
         Js.replace published_marker draft_marker itemId;
         Js.split0 ":"%char itemId ] /\
   hd_error (candidates itemId) = Some itemId /\
   NoDup (candidates itemId) /\
   (exists b w' n,
      retire mediaApi it w = (Normal (Some b), w') /\
      1 <= n /\
      deletes (invoked w w') = map Js.VStr (firstn n (candidates itemId))))
  /\
  (let without_data :=
     if Js.includes published_marker pageId
     then Js.VStr (Js.split0 ":"%char pageId)
     else Js.VStr pageId in
   let first :=
     match fst (pageGetById pagesApi pageId (store w)) with
     | Resolved _ (Object actualPageData) =>
         if page_truthy actualPageData
         then page_aposDocId actualPageData
         else without_data
     | Resolved _ (Missing _) | Rejected _ => without_data
     end in
   let alternatives :=
     if Js.includes published_marker pageId
     then [ Js.VStr (Js.replace published_marker draft_marker pageId);
            Js.VStr (Js.split0 ":"%char pageId) ]
     else [] in
   exists b w' n,
     safeDeletePage pagesApi pageId pageName w = (Normal (Some b), w') /\
     1 <= n /\
     deletes (invoked w w') = firstn n (first :: alternatives)).
Proof.
  split.
  - intros Hitem.
    split; [|split; [|split; [|split; [|split]]]].
    + intros a Ha. apply known_truthy in Ha. destruct Ha as [Heq Hne].
      unfold itemId_of, Js.or in Hitem. rewrite Heq in Hitem.
      simpl in Hitem. apply String.eqb_neq in Hne.
      rewrite Hne in Hitem. simpl in Hitem. rewrite Hne in Hitem.
      congruence.
    + intros Hnone. apply known_None in Hnone.
      unfold itemId_of, Js.or in Hitem. rewrite Hnone in Hitem.
      now apply known_truthy in Hitem.
    + apply candidates_first_occurrences.
    + destruct (candidates_head itemId) as [rest ->]. reflexivity.
    + rewrite candidates_first_occurrences. apply first_occurrences_NoDup.
    + destruct (retire_shape mediaApi it w)
        as (b & w' & cs & Hrun & Hc & _ & Hd).
      destruct (Hd itemId Hitem) as (n & Hn & Hdel).
      exists b, w', n. rewrite (invoked_app _ _ _ Hc). auto.
  - intros without_data first alternatives.
    destruct (page_shape pagesApi pageId pageName w)
      as (n & b & w' & ls & Hrun & Hc & _ & Hn & _).
    exists b, w', n. split; [exact Hrun|]. split; [lia|].
    rewrite (invoked_app _ _ _ Hc), deletes_read_unpublish,
      deletes_pair_Delete.
    unfold page_candidates, page_first_id, page_data, page_alternatives.
    subst first alternatives without_data.
    destruct (fst (pageGetById pagesApi pageId (store w)))
      as [st [missing|[[|] a i]]|e];
      destruct (Js.includes published_marker pageId); reflexivity.
Qed.

End CandidatesOfItem.

(** ** The contract at concrete inputs *)

(** C1, as the specification states it, fails on the code.  For a
    published image whose [aposDocId] is not known, every delete being
    refused, the ids tried are the item's [id] in its original form, then
    the draft form, then the bare id: not the two-element sequence of
    the specification, and the original [id] is among them.  For a page
    with the same id that could not be read, the bare id is tried
    first and again last. *)
Lemma original_id_is_tried_first :
  (exists w',
     retire (media_of (rejects 500) (rejects 404)) published_item (fresh tt)
     = (Normal (Some false), w') /\
     deletes (calls w')
     = map Js.VStr ["xyz:en:published"; "xyz:en:draft"; "xyz"] /\
     ~ claimed_candidate_set "xyz:en:published" (known (aposDocId published_item))
         (deletes (calls w'))) /\
  (exists w',
     safeDeletePage (pages_of (rejects 404) (rejects 404) (rejects 500))
       "xyz:en:published" "test page" (fresh tt)
     = (Normal (Some false), w') /\
     deletes (calls w') = map Js.VStr ["xyz"; "xyz:en:draft"; "xyz"] /\
     ~ claimed_candidate_set "xyz:en:published" None (deletes (calls w'))) /\
  spec_IdCandidateSet "xyz:en:published" None = ["xyz:en:draft"; "xyz"].
Proof.
  split; [|split; [|vm_compute; reflexivity]].
  - eexists. split; [vm_compute; reflexivity|].
    split; [vm_compute; reflexivity|].
    intros [Heq _]. vm_compute in Heq. discriminate Heq.
  - eexists. split; [vm_compute; reflexivity|].
    split; [vm_compute; reflexivity|].
    intros [Heq _]. vm_compute in Heq. discriminate Heq.
Qed.

Lemma candidate_sequence_witness :
  candidates "xyz:en:published"
  = first_occurrences ["xyz:en:published"; "xyz:en:draft"; "xyz"] /\
  hd_error (candidates "xyz:en:published") = Some "xyz:en:published" /\
  id published_item = Js.VStr "xyz:en:published" /\
  exists b w' n,
    safeDeletePage (pages_of (resolves (Object page_without_aposDocId))
                             (rejects 404) (rejects 500))
      "xyz:en:published" "test page" (fresh tt) = (Normal (Some b), w') /\
    1 <= n /\
    deletes (invoked (fresh tt) w')
    = firstn n [ Js.VUndefined; Js.VStr "xyz:en:draft"; Js.VStr "xyz" ].
Proof.
  destruct (candidate_sequence (media_of (rejects 500) (rejects 404))
              published_item "xyz:en:published"
              (pages_of (resolves (Object page_without_aposDocId))
                        (rejects 404) (rejects 500))
              "xyz:en:published" "test page" (fresh tt))
    as [Hmedia Hpage].
  destruct (Hmedia eq_refl) as (_ & Hid & Hc & Hhd & _).
  split; [exact Hc|]. split; [exact Hhd|].
  split; [apply Hid; reflexivity | exact Hpage].
Defined.

Lemma failure_aggregation_witness :
  (exists w',
     safeDeleteDocument (Js.VStr "q:en:published") file refusing_delete
       (Some (rejects 404)) (fresh tt) = (Normal (Some false), w') /\
     outcome false (printed (fresh tt) w')
     = Failed [PNum 409; PNum 409; PNum 500]) /\
  (exists w',
     safeDeletePage (pages_of (rejects 404) (rejects 404)
                                (on_strings refusing_delete))
       "q:en:published" "test page" (fresh tt) = (Normal (Some false), w') /\
     page_reasons (printed (fresh tt) w')
     = ["Request failed"; "Request failed"; "Request failed"]).
Proof.
  destruct (failure_aggregation file refusing_delete (Some (rejects 404))
              "q:en:published"
              (pages_of (rejects 404) (rejects 404)
                                (on_strings refusing_delete))
              "q:en:published" "test page" (fresh tt)
              [http_error 409; http_error 409; http_error 500]
              [http_error 500; http_error 409; http_error 500])
    as [Hmedia Hpage].
  split.
  - destruct Hmedia as (w' & Hrun & _ & Ho & _).
    + discriminate.
    + reflexivity.
    + repeat constructor.
    + exists w'. split; [exact Hrun | exact Ho].
  - destruct Hpage as (w' & Hrun & _ & Hr & _).
    + reflexivity.
    + exists w'. split; [exact Hrun | exact Hr].
Defined.

Lemma short_circuit_on_not_found_witness :
  exists w',
    safeDeleteDocument (Js.VStr "id1") image one_doc_delete
      (Some (rejects 404)) (fresh false) = (Normal (Some true), w') /\
    deletes (invoked (fresh false) w') = [Js.VStr "id1"] /\
    outcome true (printed (fresh false) w') = AlreadyAbsent.
Proof.
  destruct (short_circuit_on_not_found image one_doc_delete
              (Some (rejects 404)) "id1" (fresh false)
              (http_error 404) false)
    as (w' & Hrun & _ & Hd & Ho & _).
  - discriminate.
  - reflexivity.
  - reflexivity.
  - exists w'. auto.
Defined.

Lemma short_circuit_on_success_witness :
  exists w',
    safeDeleteDocument (Js.VStr "abc") image one_doc_delete
      (Some (rejects 404)) (fresh true) = (Normal (Some true), w') /\
    length (deletes (invoked (fresh true) w')) = 1 /\
    outcome true (printed (fresh true) w') = Deleted.
Proof.
  destruct (short_circuit_on_success image one_doc_delete
              (Some (rejects 404)) "abc" (fresh true) tt false)
    as (w' & Hrun & _ & _ & Hn & Ho & _).
  - discriminate.
  - reflexivity.
  - exists w'. auto.
Defined.

Lemma unpublish_never_blocks_witness :
  (exists w',
     safeDeleteDocument (Js.VStr "abc") image one_doc_delete
       (Some (rejects 500)) (fresh true) = (Normal (Some true), w') /\
     outcome true (printed (fresh true) w') = Deleted) /\
  (exists w',
     safeDeletePage (pages_of (rejects 404) (rejects 500) one_doc_delete)
       "p1" "test page" (fresh true) = (Normal (Some true), w')).
Proof.
  destruct (unpublish_never_blocks image one_doc_delete (rejects 500) "abc"
              (pages_of (rejects 404) (rejects 500) one_doc_delete)
              "p1" "test page" (fresh true))
    as [Hmedia Hpage].
  split.
  - destruct (Hmedia (Rejected (http_error 500)) true)
      as (b & w' & rest & Hrun & _ & _ & Hok).
    + discriminate.
    + reflexivity.
    + destruct (Hok tt false eq_refl) as [Hb Ho].
      exists w'. rewrite Hb in Hrun. auto.
  - destruct (Hpage (Rejected (http_error 500)) true eq_refl)
      as (b & w' & rest & Hrun & _ & Hok).
    exists w'. rewrite (Hok tt false eq_refl) in Hrun. exact Hrun.
Defined.

Lemma aposDocId_tried_first_witness :
  (exists b w' rest,
     retire (media_of one_doc_delete (rejects 404)) known_item (fresh true)
     = (Normal (Some b), w') /\
     deletes (invoked (fresh true) w') = Js.VStr "abc" :: rest) /\
  (exists b w' rest,
     safeDeletePage
       (pages_of (resolves (Object page_p1)) (rejects 404) one_doc_delete)
       "p1:en:published" "test page" (fresh true) = (Normal (Some b), w') /\
     deletes (invoked (fresh true) w') = Js.VStr "p1" :: rest).
Proof.
  destruct (aposDocId_tried_first
              (media_of one_doc_delete (rejects 404)) known_item "abc"
              (pages_of (resolves (Object page_p1)) (rejects 404)
                        one_doc_delete)
              "p1:en:published" "test page" page_p1 (fresh true))
    as [Hmedia Hpage].
  split.
  - destruct (Hmedia eq_refl) as (b & w' & rest & Hrun & Hd & _).
    exists b, w', rest. auto.
  - destruct (Hpage eq_refl) as (b & w' & rest & Hrun & Hd & _).
    exists b, w', rest. auto.
Defined.

Lemma retire_twice_witness :
  exists w2,
    safeDeleteDocument (Js.VStr "abc") image one_doc_delete
      (Some (rejects 404)) after_first_retirement = (Normal (Some true), w2) /\
    outcome true (printed after_first_retirement w2) = AlreadyAbsent.
Proof.
  apply (retire_twice image one_doc_delete (Some (rejects 404)) "abc"
           (fun present => present = false)) with (w := fresh true).
  - intros c [|] d s' _ H; simpl in H; congruence.
  - intros c s _ ->. simpl. split; [reflexivity | discriminate].
  - exists "abc". split; [now left|].
    intros s ->. exists (http_error 404). split; reflexivity.
  - intros s ->. reflexivity.
  - discriminate.
  - reflexivity.
  - reflexivity.
Defined.

(** Why C7 needs the store to answer 404 once the document is gone: on
    a store that resolves every delete with status 200, the second
    retirement is a deletion again. *)
Remark second_deletion_without_not_found :
  exists w1 w2,
    safeDeleteDocument (Js.VStr "abc") image (resolves tt)
      (Some (rejects 404)) (fresh tt) = (Normal (Some true), w1) /\
    outcome true (printed (fresh tt) w1) = Deleted /\
    safeDeleteDocument (Js.VStr "abc") image (resolves tt)
      (Some (rejects 404)) w1 = (Normal (Some true), w2) /\
    outcome true (printed w1 w2) = Deleted.
Proof.
  do 2 eexists.
  split; [vm_compute; reflexivity|]. split; [vm_compute; reflexivity|].
  split; vm_compute; reflexivity.
Qed.

Lemma alternatives_need_marker_witness :
  exists b w',
    safeDeletePage (pages_of (rejects 404) (rejects 404) one_doc_delete)
      "p1" "test page" (fresh false) = (Normal (Some b), w') /\
    deletes (invoked (fresh false) w') = [Js.VStr "p1"] /\
    b = false.
Proof.
  destruct (alternatives_need_marker
              (pages_of (rejects 404) (rejects 404) one_doc_delete)
              "p1" "test page" (fresh false))
    as (b & w' & Hrun & _ & _ & Hone).
  destruct (Hone eq_refl) as (Hd & _ & Hb).
  exists b, w'. split; [exact Hrun|]. split; [exact Hd|].
  destruct b; [|reflexivity].
  destruct (proj1 Hb eq_refl) as (d & s' & H). discriminate H.
Defined.

Lemma falsy_itemId_returns_false_witness :
  exists w',
    safeDeleteDocument Js.VNull image one_doc_delete (Some (rejects 404))
      (fresh true) = (Normal (Some false), w') /\
    w' = fresh true.
Proof.
  destruct (falsy_itemId_returns_false image one_doc_delete
              (Some (rejects 404)) Js.VNull (fresh true) eq_refl)
    as (w' & Hrun & Hw & _).
  exists w'. auto.
Defined.

(** ** Where the helpers differ from the resolver of the specification *)

(** When [aposDocId] is known, the rewrites are applied to it, not to
    the item's [id]: the draft form of the [id] is not tried. *)
Remark known_aposDocId_is_the_only_candidate :
  exists w',
    retire (media_of (rejects 500) (rejects 404)) known_item (fresh tt)
    = (Normal (Some false), w') /\
    deletes (calls w') = [Js.VStr "abc"] /\
    spec_IdCandidateSet "abc:en:published" (Some "abc")
    = ["abc"; "abc:en:draft"].
Proof. eexists. repeat apply conj; vm_compute; reflexivity. Qed.

(** A delete that resolves with a status other than 200 is neither a
    success nor a printed failure: the loop moves on in silence. *)
Remark resolved_without_200_prints_no_reason :
  exists w',
    safeDeleteDocument (Js.VStr "q:en:published") file (answers 204)
      (Some (rejects 404)) (fresh tt) = (Normal (Some false), w') /\
    deletes (calls w')
    = map Js.VStr ["q:en:published"; "q:en:draft"; "q"] /\
    outcome false (printed (fresh tt) w') = Failed [].
Proof. eexists. repeat apply conj; vm_compute; reflexivity. Qed.

(** [safeDeletePage] has no case for status 404: a page that is already
    gone makes it return [false]. *)
Remark page_not_found_is_a_failure :
  exists w',
    safeDeletePage (pages_of (rejects 404) (rejects 404) (rejects 404))
      "p1" "test page" (fresh tt) = (Normal (Some false), w') /\
    deletes (calls w') = [Js.VStr "p1"] /\
    page_reasons (printed (fresh tt) w') = ["Request failed"].
Proof. eexists. repeat apply conj; vm_compute; reflexivity. Qed.

(** [safeDeletePage] tests only whether the read returned data, not
    whether the data has an [aposDocId]: when the field is missing the
    first delete is invoked on [undefined], and the bare id is tried
    only last. *)
Remark missing_aposDocId_is_passed_on :
  exists w',
    safeDeletePage (pages_of (resolves (Object page_without_aposDocId))
                             (rejects 404) (rejects 500))
      "xyz:en:published" "test page" (fresh tt) = (Normal (Some false), w') /\
    deletes (calls w')
    = [ Js.VUndefined; Js.VStr "xyz:en:draft"; Js.VStr "xyz" ] /\
    In (UsingAposDocId Js.VUndefined) (console w').
Proof.
  eexists. split; [vm_compute; reflexivity|].
  split; [vm_compute; reflexivity|]. vm_compute. tauto.
Qed.

(** A read that resolves with an empty body: the page info line
    prints [undefined] twice, and the bare id is used. *)
Remark empty_body_is_no_data :
  exists w',
    safeDeletePage (pages_of (resolves (Object empty_body))
                             (rejects 404) (rejects 500))
      "xyz:en:published" "test page" (fresh tt) = (Normal (Some false), w') /\
    deletes (calls w')
    = [ Js.VStr "xyz"; Js.VStr "xyz:en:draft"; Js.VStr "xyz" ] /\
    In (PageInfo Js.VUndefined Js.VUndefined) (console w').
Proof.
  eexists. split; [vm_compute; reflexivity|].
  split; [vm_compute; reflexivity|]. vm_compute. tauto.
Qed.

(** A read that resolves with [data: null]: the page info line throws,
    the message names [null], and the bare id is used. *)
Remark null_data_is_no_data :
  exists w',
    safeDeletePage (pages_of (resolves (Missing Null))
                             (rejects 404) (rejects 500))
      "xyz:en:published" "test page" (fresh tt) = (Normal (Some false), w') /\
    deletes (calls w')
    = [ Js.VStr "xyz"; Js.VStr "xyz:en:draft"; Js.VStr "xyz" ] /\
    In (CouldNotRetrieve
          "Cannot read properties of null (reading 'aposDocId')")
       (console w').
Proof.
  eexists. split; [vm_compute; reflexivity|].
  split; [vm_compute; reflexivity|]. vm_compute. tauto.
Qed.

(** * Further properties of the scripts *)

(** ** The id rewriting *)

Section IdRewriting.

Import Js.

Lemma prefix_length (p s : string) :
  prefix p s = true ->
  String.length (drop (String.length p) s) + String.length p
  = String.length s.
Proof.
  revert s. induction p as [|a p IH]; intros s H; simpl.
  - lia.
  - destruct s as [|b s]; simpl in H; [discriminate|].
    destruct (ascii_dec a b); [|discriminate].
    simpl. specialize (IH s H). lia.
Qed.

Lemma append_length (s t : string) :
  String.length (s ++ t)%string = String.length s + String.length t.
Proof. induction s as [|a s IH]; simpl; congruence. Qed.

(** Replacing changes the length by the difference of the two
    patterns, when the pattern is there. *)
Lemma replace_length (pat rep s : string) :
  includes pat s = true ->
  String.length (replace pat rep s) + String.length pat
  = String.length s + String.length rep.
Proof.
  induction s as [|a s IH]; cbn [includes replace].
  - destruct (prefix pat EmptyString) eqn:Hp; [|discriminate].
    intros _. rewrite append_length.
    pose proof (prefix_length pat EmptyString Hp) as H. lia.
  - destruct (prefix pat (String a s)) eqn:Hp.
    + intros _. rewrite append_length.
      pose proof (prefix_length pat (String a s) Hp) as H. lia.
    + intros H. specialize (IH H). cbn [String.length]. lia.
Qed.

Lemma replace_absent (pat rep s : string) :
  includes pat s = false -> replace pat rep s = s.
Proof.
  induction s as [|a s IH]; cbn [includes replace].
  - destruct (prefix pat EmptyString); [discriminate | reflexivity].
  - destruct (prefix pat (String a s)); [discriminate|].
    intros H. now rewrite IH.
Qed.

Lemma prefix_cons (a b : ascii) (p s : string) :
  prefix (String a p) (String b s)
  = if ascii_dec a b then prefix p s else false.
Proof. reflexivity. Qed.

(** What [includes ":"] says of a string that starts with [a]. *)
Lemma includes_colon_cons (a : ascii) (s : string) :
  includes ":" (String a s)
  = if Ascii.eqb a ":"%char then true else includes ":" s.
Proof.
  cbn [includes]. rewrite prefix_cons.
  destruct (ascii_dec ":"%char a) as [<-|Hne].
  - destruct s; reflexivity.
  - destruct (Ascii.eqb_spec a ":"%char) as [->|_];
      [now elim Hne | reflexivity].
Qed.

(** A pattern that starts with a colon is not in a string without
    colon. *)
Lemma no_colon_no_marker (p s : string) :
  includes ":" s = false -> includes (String ":"%char p) s = false.
Proof.
  induction s as [|a s IH]; [reflexivity|].
  rewrite includes_colon_cons. cbn [includes]. rewrite prefix_cons.
  destruct (Ascii.eqb_spec a ":"%char) as [->|Hne]; [discriminate|].
  destruct (ascii_dec ":"%char a) as [<-|_]; [now elim Hne | exact IH].
Qed.

Lemma split0_absent (s : string) :
  includes ":" s = false -> split0 ":"%char s = s.
Proof.
  induction s as [|a s IH]; [reflexivity|].
  rewrite includes_colon_cons. cbn [split0].
  destruct (Ascii.eqb a ":"%char); [discriminate|].
  intros H. now rewrite IH.
Qed.

Lemma split0_no_colon (s : string) :
  includes ":" (split0 ":"%char s) = false.
Proof.
  induction s as [|a s IH]; [reflexivity|].
  cbn [split0].
  destruct (Ascii.eqb a ":"%char) eqn:Ha; [reflexivity|].
  rewrite includes_colon_cons, Ha. exact IH.
Qed.

Lemma split0_prefix (s : string) : prefix (split0 ":"%char s) s = true.
Proof.
  induction s as [|a s IH]; [reflexivity|].
  cbn [split0].
  destruct (Ascii.eqb a ":"%char); [reflexivity|].
  rewrite prefix_cons.
  destruct (ascii_dec a a) as [_|Hne]; [exact IH | now elim Hne].
Qed.

(** X1.  The bare id, [id.split(':')[0]], never holds a colon, is a
    prefix of the id, and is the id itself exactly when the id holds no
    colon; so taking it twice changes nothing. *)
Theorem bare_id_facts (s : string) :
  includes ":" (split0 ":"%char s) = false /\
  prefix (split0 ":"%char s) s = true /\
  (split0 ":"%char s = s <-> includes ":" s = false) /\
  split0 ":"%char (split0 ":"%char s) = split0 ":"%char s.
Proof.
  split; [apply split0_no_colon|].
  split; [apply split0_prefix|].
  split.
  - split; [|apply split0_absent].
    intros H. rewrite <- H. apply split0_no_colon.
  - apply split0_absent, split0_no_colon.
Qed.

(** X2.  The rewrite of [:en:published] to [:en:draft] leaves an id
    unchanged exactly when the id does not contain [:en:published];
    when it does, the result is four characters shorter. *)
Theorem draft_rewrite_changes_marked_ids (s : string) :
  (replace published_marker draft_marker s = s
   <-> includes published_marker s = false) /\
  (includes published_marker s = true ->
   String.length (replace published_marker draft_marker s) + 4
   = String.length s).
Proof.
  assert (Hlen : includes published_marker s = true ->
                 String.length (replace published_marker draft_marker s) + 4
                 = String.length s).
  { intros H. pose proof (replace_length _ draft_marker _ H) as Hl.
    change (String.length published_marker) with 13 in Hl.
    change (String.length draft_marker) with 9 in Hl. lia. }
  split; [|exact Hlen]. split.
  - intros Heq. destruct (includes published_marker s) eqn:H; [|reflexivity].
    specialize (Hlen eq_refl). rewrite Heq in Hlen. lia.
  - apply replace_absent.
Qed.

Lemma append_no_colon_split0 (base t : string) :
  includes ":" base = false ->
  split0 ":"%char (base ++ String ":"%char t) = base.
Proof.
  induction base as [|a base IH]; [reflexivity|].
  rewrite includes_colon_cons.
  change (String a base ++ String ":"%char t)%string
    with (String a (base ++ String ":"%char t)).
  cbn [split0].
  destruct (Ascii.eqb a ":"%char); [discriminate|].
  intros H. now rewrite IH.
Qed.

Lemma append_no_colon_replace (base : string) :
  includes ":" base = false ->
  replace published_marker draft_marker (base ++ published_marker)
  = (base ++ draft_marker)%string.
Proof.
  induction base as [|a base IH]; [reflexivity|].
  rewrite includes_colon_cons.
  destruct (Ascii.eqb_spec a ":"%char) as [->|Hne]; [discriminate|].
  intros H.
  change (String a base ++ published_marker)%string
    with (String a (base ++ published_marker)).
  change (String a base ++ draft_marker)%string
    with (String a (base ++ draft_marker)).
  cbn [replace].
  assert (Hp : prefix published_marker (String a (base ++ published_marker))
               = false).
  { unfold published_marker at 1. rewrite prefix_cons.
    destruct (ascii_dec ":"%char a) as [<-|_];
      [now elim Hne | reflexivity]. }
  rewrite Hp. now rewrite IH.
Qed.

Lemma append_differs (base s t : string) :
  s <> t -> ((base ++ s)%string =? (base ++ t)%string) = false.
Proof.
  intros Hne. apply String.eqb_neq. intros H. apply Hne.
  induction base as [|a base IH]; simpl in H; [exact H|].
  injection H as H. now apply IH.
Qed.

Lemma append_longer (base s : string) :
  s <> EmptyString -> (base =? (base ++ s)%string) = false.
Proof.
  intros Hne. apply String.eqb_neq. intros H.
  apply (f_equal String.length) in H. rewrite append_length in H.
  destruct s; [now elim Hne | simpl in H; lia].
Qed.

(** X3.  For a published id in the usual form, a colon-free document
    id followed by [:en:published], the candidates are exactly three:
    the id as given, its draft form, and the document id. *)
Theorem candidates_of_published_id (base : string) :
  includes ":" base = false ->
  candidates (base ++ published_marker)
  = [ (base ++ published_marker)%string;
      (base ++ draft_marker)%string; base ].
Proof.
  intros Hbase. rewrite candidates_first_occurrences. unfold tryIds.
  rewrite append_no_colon_replace by exact Hbase.
  unfold published_marker at 2.
  rewrite append_no_colon_split0 by exact Hbase.
  fold published_marker. simpl.
  rewrite (append_differs base draft_marker published_marker)
    by discriminate.
  simpl.
  rewrite (append_longer base draft_marker) by discriminate.
  simpl.
  rewrite (append_longer base published_marker) by discriminate.
  reflexivity.
Qed.

Lemma candidates_without_colon (itemId : string) :
  includes ":" itemId = false -> candidates itemId = [itemId].
Proof.
  intros H. unfold candidates, tryIds.
  rewrite replace_absent by (apply no_colon_no_marker; exact H).
  rewrite split0_absent by exact H.
  unfold Set_of. simpl. unfold Set_add, Set_has. simpl.
  rewrite String.eqb_refl. simpl. rewrite String.eqb_refl. reflexivity.
Qed.

End IdRewriting.

(** ** More on the runs of [safeDeleteDocument] *)

Section MediaFurther.

Context {Store : Type}.
Variable kind : Kind.
Variable del : Method Store unit.
Variable unpub : option (Method Store unit).

Lemma NoDup_firstn {A} (n : nat) (l : list A) :
  NoDup l -> NoDup (firstn n l).
Proof.
  revert l. induction n as [|n IH]; intros [|a l] H; simpl;
    try constructor.
  - inversion H as [|? ? Hnotin Hl]; subst.
    intros Hin. apply Hnotin. revert Hin. apply firstn_incl.
  - inversion H; subst. now apply IH.
Qed.

Lemma candidates_NoDup (itemId : string) : NoDup (candidates itemId).
Proof.
  rewrite candidates_first_occurrences. apply first_occurrences_NoDup.
Qed.

Lemma NoDup_map_VStr (ids : list string) :
  NoDup ids -> NoDup (map Js.VStr ids).
Proof.
  induction 1 as [|x xs Hnotin Hxs IH]; simpl; constructor; auto.
  intros Hin. apply in_map_iff in Hin. destruct Hin as (y & Hy & Hin).
  injection Hy as ->. contradiction.
Qed.

Lemma unpublishes_unpublish_calls itemId (u : option (Method Store unit)) :
  unpublishes (unpublish_calls itemId u)
  = match u with Some _ => [Js.VStr itemId] | None => [] end.
Proof. destruct u; reflexivity. Qed.

(** X4.  For a truthy id, [safeDeleteDocument] invokes unpublish once
    when it is given the method and never otherwise, then delete at
    least once and at most three times, and never twice on the same
    id. *)
Theorem delete_attempts_are_bounded (itemId : string) (w : World Store) :
  itemId <> EmptyString ->
  exists b w',
    safeDeleteDocument (Js.VStr itemId) kind del unpub w
    = (Normal (Some b), w') /\
    unpublishes (invoked w w')
    = match unpub with Some _ => [Js.VStr itemId] | None => [] end /\
    1 <= length (deletes (invoked w w')) <= 3 /\
    NoDup (deletes (invoked w w')).
Proof.
  intros Hne.
  destruct (media_shape kind del unpub itemId w Hne)
    as (b & w' & n & ls & Hrun & Hn & Hc & _).
  exists b, w'. split; [exact Hrun|].
  rewrite (invoked_app _ _ _ Hc).
  rewrite unpublishes_app, deletes_app, unpublishes_Delete, deletes_Delete.
  rewrite deletes_unpublish_calls, unpublishes_unpublish_calls, app_nil_r.
  simpl. pose proof (candidates_length itemId) as Hlen.
  split; [reflexivity|]. split.
  - rewrite length_map, length_firstn. lia.
  - apply NoDup_map_VStr, NoDup_firstn, candidates_NoDup.
Qed.

(** X5.  An id without any colon has itself as its only candidate:
    whatever the answers, delete is invoked exactly once. *)
Theorem colon_free_id_is_tried_once (itemId : string) (w : World Store) :
  itemId <> EmptyString ->
  Js.includes ":" itemId = false ->
  candidates itemId = [itemId] /\
  exists b w',
    safeDeleteDocument (Js.VStr itemId) kind del unpub w
    = (Normal (Some b), w') /\
    deletes (invoked w w') = [Js.VStr itemId].
Proof.
  intros Hne Hcolon.
  pose proof (candidates_without_colon itemId Hcolon) as Hcands.
  split; [exact Hcands|].
  destruct (media_shape kind del unpub itemId w Hne)
    as (b & w' & n & ls & Hrun & Hn & Hc & _).
  exists b, w'. split; [exact Hrun|].
  rewrite (invoked_app _ _ _ Hc), deletes_app, deletes_unpublish_calls.
  rewrite deletes_Delete, Hcands in *. simpl in Hn.
  assert (n = 1) as -> by lia. reflexivity.
Qed.

(** The loop in terms of the responses it received: it stops at the
    first response that is a 200 or a 404, and nowhere else. *)
Lemma loop_outcome (ids : list string) (w : World Store) :
  exists b w' n,
    for_of ids (delete_attempt kind del) w
    = ((if b : bool then Return true else Normal tt), w') /\
    n <= length ids /\
    calls w' = calls w ++ map (on Delete) (firstn n ids) /\
    b = existsb ends_loop (responses del (firstn n ids) (store w)) /\
    existsb ends_loop
      (removelast (responses del (firstn n ids) (store w))) = false /\
    (b = false -> n = length ids).
Proof.
  revert w. induction ids as [|x xs IH]; intros w.
  - exists false, w, 0. simpl. rewrite app_nil_r.
    repeat split; reflexivity.
  - rewrite for_of_cons, delete_attempt_run.
    assert (Hstep : forall w1 : World Store,
               store w1 = snd (del x (store w)) ->
               calls w1 = calls w ++ [on Delete x] ->
               ends_loop (fst (del x (store w))) = false ->
               exists b w' n,
                 for_of xs (delete_attempt kind del) w1
                 = ((if b : bool then Return true else Normal tt), w') /\
                 n <= length (x :: xs) /\
                 calls w' = calls w ++ map (on Delete) (firstn n (x :: xs)) /\
                 b = existsb ends_loop
                       (responses del (firstn n (x :: xs)) (store w)) /\
                 existsb ends_loop
                   (removelast
                      (responses del (firstn n (x :: xs)) (store w))) = false /\
                 (b = false -> n = length (x :: xs))).
    { intros w1 Hs Hc Hend.
      destruct (IH w1) as (b & w' & n & Hrun & Hn & Hc' & Hb & Hpre & Hall).
      exists b, w', (S n). split; [exact Hrun|].
      simpl. split; [lia|]. split.
      { rewrite Hc', Hc, <- app_assoc. reflexivity. }
      destruct (del x (store w)) as [r s'] eqn:Hdel. simpl in *.
      rewrite Hs in Hb, Hpre. rewrite Hend. simpl.
      split; [exact Hb|]. split.
      - destruct (responses del (firstn n xs) s') as [|r' rs]; [reflexivity|].
        cbn [existsb removelast] in *. rewrite Hend. exact Hpre.
      - intros Hf. now rewrite (Hall Hf). }
    destruct (del x (store w)) as [[st d|e] s'] eqn:Hdel; simpl.
    + destruct (st =? 200)%Z eqn:Hst.
      * exists true. eexists. exists 1. simpl. rewrite Hdel. simpl.
        rewrite Hst. repeat split; auto; try lia; discriminate.
      * apply Hstep; simpl; auto.
    + destruct (status_is e 404) eqn:H404.
      * exists true. eexists. exists 1. simpl. rewrite Hdel. simpl.
        rewrite H404. repeat split; auto; try lia; discriminate.
      * apply Hstep; simpl; auto.
Qed.

(** X6.  The result of [safeDeleteDocument] in terms of the responses
    to its deletes: it is [true] exactly when one of them was a 200 or
    a rejection with 404, that response was the last one received, and
    [false] comes only after every candidate has been tried. *)
Theorem result_follows_the_responses (itemId : string) (w : World Store) :
  itemId <> EmptyString ->
  exists b w' n,
    safeDeleteDocument (Js.VStr itemId) kind del unpub w
    = (Normal (Some b), w') /\
    deletes (invoked w w') = map Js.VStr (firstn n (candidates itemId)) /\
    (let received :=
       responses del (firstn n (candidates itemId))
         (store_after_unpublish unpub itemId (store w)) in
     b = existsb ends_loop received /\
     existsb ends_loop (removelast received) = false) /\
    (b = false -> deletes (invoked w w') = map Js.VStr (candidates itemId)).
Proof.
  intros Hne.
  destruct (loop_outcome (candidates itemId)
              (unpublished kind itemId unpub w))
    as (b & w2 & n & Hrun & Hn & Hc & Hb & Hpre & Hall).
  rewrite unpublished_store in Hb, Hpre.
  rewrite unpublished_calls, <- app_assoc in Hc.
  assert (Hd : forall w3 : World Store, calls w3 = calls w2 ->
               deletes (invoked w w3)
               = map Js.VStr (firstn n (candidates itemId))).
  { intros w3 H3. rewrite <- H3 in Hc.
    rewrite (invoked_app _ _ _ Hc), deletes_app, deletes_unpublish_calls.
    apply deletes_Delete. }
  destruct b.
  - exists true, w2, n.
    split; [now apply safeDeleteDocument_returned|].
    rewrite (Hd w2 eq_refl). repeat split; auto. discriminate.
  - exists false, (say w2 [MayBeProtected kind]), n.
    split; [now apply safeDeleteDocument_exhausted|].
    rewrite (Hd (say w2 [MayBeProtected kind]) eq_refl).
    repeat split; auto.
    intros _. rewrite (Hall eq_refl). now rewrite firstn_all.
Qed.

End MediaFurther.

(** ** More on the cleanup loop of the media script *)

Section CleanupBounds.

Context {Store : Type}.
Variable mediaApi : MediaApi Store.

Lemma retire_requests (it : Created) (w : World Store) :
  exists b w' cs,
    retire mediaApi it w = (Normal (Some b), w') /\
    calls w' = calls w ++ cs /\
    retires it cs.
Proof.
  unfold retire, retires.
  destruct (known (itemId_of it)) as [s|] eqn:Hk.
  - apply known_truthy in Hk. destruct Hk as [-> Hne].
    destruct (media_shape (type it) (del_of mediaApi (type it))
                (Some (unpub_of mediaApi (type it))) s w Hne)
      as (b & w' & n & ls & Hrun & Hn & Hc & _).
    exists b, w'. eexists. split; [exact Hrun|]. split; [exact Hc|].
    exists n. split; [exact Hn | reflexivity].
  - apply known_None in Hk. exists false, w, [].
    split; [|split; [now rewrite app_nil_r | reflexivity]].
    unfold safeDeleteDocument. rewrite Hk. reflexivity.
Qed.

(** The calls of the loop, item by item. *)
Lemma cleanup_blocks (items : list Created) (w : World Store) :
  exists w' blocks,
    for_of items (fun it => _ <- retire mediaApi it ;; wait 300) w
    = (Normal tt, w') /\
    calls w' = calls w ++ concat blocks /\
    Forall2 retires items blocks.
Proof.
  revert w. induction items as [|it items IH]; intros w.
  - exists w, []. simpl. rewrite app_nil_r. auto.
  - destruct (retire_requests it w) as (b & w1 & cs1 & Hrun & Hc1 & Hit).
    destruct (IH w1) as (w' & blocks & Hloop & Hc & Hall).
    exists w', (cs1 :: blocks).
    rewrite for_of_cons. unfold bind at 1. rewrite Hrun. simpl.
    split; [exact Hloop|]. split.
    + rewrite Hc, Hc1. now rewrite app_assoc.
    + now constructor.
Qed.

Lemma retires_bounds (it : Created) (cs : list Call) :
  retires it cs ->
  length (unpublishes cs) <= 1 /\ length (deletes cs) <= 3.
Proof.
  unfold retires. destruct (known (itemId_of it)) as [s|].
  - intros (n & Hn & ->).
    change (unpublishes (on Unpublish s :: ?l))
      with (Js.VStr s :: unpublishes l).
    change (deletes (on Unpublish s :: ?l)) with (deletes l).
    rewrite unpublishes_Delete, deletes_Delete, length_map, length_firstn.
    pose proof (candidates_length s). simpl. lia.
  - intros ->. simpl. lia.
Qed.

Lemma Forall2_impl {A B} (P Q : A -> B -> Prop) (l : list A) (l' : list B) :
  (forall a b, In a l -> P a b -> Q a b) ->
  Forall2 P l l' -> Forall2 Q l l'.
Proof.
  intros Himp H. induction H as [|a b l l' Hab Hrest IH]; constructor.
  - apply Himp; [now left | exact Hab].
  - apply IH. intros a' b' Hin. apply Himp. now right.
Qed.

(** X7.  The cleanup of the media script always runs to its end, and
    its requests split into one block per created item, from the item
    created last to the one created first; the block of an item holds
    at most one unpublish and at most three deletes (nothing at all for
    an item without a truthy id; else the unpublish on
    [aposDocId || id] and the deletes on a prefix of the candidates of
    that id).  With nothing created, nothing happens. *)
Theorem cleanup_requests_are_bounded (created : list Created)
    (w : World Store) :
  exists w' blocks,
    cleanup mediaApi created w = (Normal tt, w') /\
    invoked w w' = concat blocks /\
    Forall2 (fun it cs =>
               retires it cs /\
               length (unpublishes cs) <= 1 /\
               length (deletes cs) <= 3)
            (rev created) blocks /\
    (created = [] -> w' = w).
Proof.
  unfold cleanup.
  destruct (cleanup_blocks (rev created) w)
    as (w' & blocks & Hrun & Hc & Hall).
  exists w', blocks. split; [exact Hrun|].
  split; [exact (invoked_app _ _ _ Hc)|]. split.
  - apply Forall2_impl with (P := retires); [|exact Hall].
    intros it cs _ Hit. split; [exact Hit|]. exact (retires_bounds it cs Hit).
  - intros ->. simpl in Hrun. unfold ret in Hrun. congruence.
Qed.

End CleanupBounds.

(** ** More on the runs of [safeDeletePage] *)

Section PageFurther.

Context {Store : Type}.
Variable api : PagesApi Store.

Local Opaque TypeError published_marker draft_marker.

(** The [catch] block returns [true] only from a delete that resolved
    with status 200, and leaves the store of that delete. *)
Lemma catch_block_true (pageId pageName : string) (deleteError : Error)
    (w w' : World Store) :
  catch_block api pageId pageName deleteError w = (Return true, w') ->
  exists c s d,
    In c (map Js.VStr (page_alternatives pageId)) /\
    pageDeleteById api c s = (Resolved 200 d, store w').
Proof.
  unfold catch_block, page_alternatives. run_js.
  destruct (Js.includes published_marker pageId); simpl.
  all: repeat match goal with
       | |- context [pageDeleteById api ?i ?s] =>
           destruct (pageDeleteById api i s) as [[? ?|?] ?] eqn:?; simpl
       | |- context [(?z =? 200)%Z] => destruct (z =? 200)%Z eqn:?; simpl
       | |- context [response ?e] => destruct (response e); simpl
       end.
  all: intros H; try discriminate H; injection H as <-.
  all: repeat match goal with
       | Hz : (?z =? 200)%Z = true |- _ => apply Z.eqb_eq in Hz; subst z
       end.
  all: simpl; do 3 eexists; (split; [|eassumption]); simpl; tauto.
Qed.

Lemma page_candidates_length (data : option PageData) (pageId : string) :
  1 <= length (page_candidates data pageId) <= 3.
Proof.
  unfold page_candidates, page_alternatives. simpl.
  destruct (Js.includes published_marker pageId); simpl; lia.
Qed.

(** The requests of a run, in full. *)
Lemma page_requests_shape (pageId pageName : string) (w : World Store) :
  exists b w' ds,
    safeDeletePage api pageId pageName w = (Normal (Some b), w') /\
    calls w' = calls w ++ page_requests pageId ds /\
    1 <= length ds <= 3 /\
    (exists n, ds = firstn n
                      (page_candidates (page_data api pageId (store w))
                                       pageId)).
Proof.
  destruct (page_shape api pageId pageName w)
    as (n & b & w' & ls & Hrun & Hc & _ & Hn & _).
  exists b, w'. eexists. split; [exact Hrun|]. split; [exact Hc|].
  pose proof (page_candidates_length
                (page_data api pageId (store w)) pageId) as Hlen.
  split; [rewrite length_firstn; lia | eauto].
Qed.

(** X8.  Every run of [safeDeletePage] makes one read and one unpublish
    request on [pageId], in this order and whatever they answer, and
    then between one and three delete requests, on a prefix of the
    page's candidates. *)
Theorem page_requests_are_fixed (pageId pageName : string)
    (w : World Store) :
  exists b w' ds,
    safeDeletePage api pageId pageName w = (Normal (Some b), w') /\
    invoked w w'
    = on GetById pageId :: on Unpublish pageId :: map (pair Delete) ds /\
    1 <= length ds <= 3 /\
    (exists n, ds = firstn n
                      (page_candidates (page_data api pageId (store w))
                                       pageId)).
Proof.
  destruct (page_requests_shape pageId pageName w)
    as (b & w' & ds & Hrun & Hc & Hlen & Hpre).
  exists b, w', ds. split; [exact Hrun|].
  split; [exact (invoked_app _ _ _ Hc) | auto].
Qed.

(** X9.  When the first delete of [safeDeletePage] resolves with a
    status other than 200, the function returns [false] at once: the
    draft and base ids are not tried, even for a published id. *)
Theorem resolved_failure_is_final (pageId pageName : string)
    (w : World Store) (st : Z) (d : unit) (s' : Store) :
  let first := page_first_id (page_data api pageId (store w)) pageId in
  pageDeleteById api first (store_before_delete api pageId (store w))
  = (Resolved st d, s') ->
  st <> 200%Z ->
  exists w',
    safeDeletePage api pageId pageName w = (Normal (Some false), w') /\
    deletes (invoked w w') = [first].
Proof.
  intros first Hdel Hst.
  destruct (page_shape api pageId pageName w)
    as (n & b & w' & ls & Hrun & Hc & _ & _ & Hres & _).
  destruct (Hres st d s' Hdel) as [-> ->].
  apply Z.eqb_neq in Hst. rewrite Hst in Hrun.
  exists w'. split; [exact Hrun|].
  rewrite (invoked_app _ _ _ Hc), deletes_read_unpublish.
  unfold page_candidates. reflexivity.
Qed.

(** X10.  [safeDeletePage] returns [true] only when one of its deletes
    resolved with status 200, and the store it leaves is the one that
    delete produced; a rejection, also with 404, never counts. *)
Theorem page_success_needs_status_200 (pageId pageName : string)
    (w w' : World Store) :
  safeDeletePage api pageId pageName w = (Normal (Some true), w') ->
  exists c s d,
    In c (page_candidates (page_data api pageId (store w)) pageId) /\
    pageDeleteById api c s = (Resolved 200 d, store w').
Proof.
  destruct (try_block_run api pageId pageName w)
    as (r & w1 & ls1 & Htry & _ & Hs1 & _ & _ & Hend).
  unfold safeDeletePage, call_function, try_catch. rewrite Htry.
  unfold page_candidates.
  destruct (pageDeleteById api
              (page_first_id (page_data api pageId (store w)) pageId)
              (store_before_delete api pageId (store w)))
    as [[st d|e] s'] eqn:Hdel; simpl in Hend, Hs1; subst r.
  - intros H. injection H as Hst <-.
    apply Z.eqb_eq in Hst. subst st. rewrite Hs1.
    do 3 eexists. split; [now left | exact Hdel].
  - destruct (catch_block api pageId pageName e w1) as [[a|v|e'] w2] eqn:Hcatch;
      intros H; try discriminate H.
    injection H as -> <-.
    destruct (catch_block_true _ _ _ _ _ Hcatch) as (c & s & d & Hin & Hd).
    exists c, s, d. split; [now right | exact Hd].
Qed.

End PageFurther.

(** ** The page cleanup *)

Section PageCleanupRuns.

Context {Store : Type}.
Variable api : PagesApi Store.

Lemma requests_for_page (pageId : string) (ds : list Js.value) :
  pageId <> EmptyString ->
  1 <= length ds <= 3 ->
  requests_for (Js.VStr pageId) (page_requests pageId ds).
Proof.
  intros Hne Hlen. unfold requests_for. simpl.
  apply String.eqb_neq in Hne. rewrite Hne. eauto.
Qed.

(** One of the two [if] statements of the cleanup. *)
Lemma delete_if_set (v : Js.value) (name : string) (pause : M Store unit)
    (w : World Store) :
  (forall w0, pause w0 = (Normal tt, w0)) ->
  exists w' cs,
    (if Js.truthy v then
       match v with
       | Js.VStr id => _ <- safeDeletePage api id name ;; pause
       | Js.VUndefined | Js.VNull => ret tt
       end
     else ret tt) w = (Normal tt, w') /\
    calls w' = calls w ++ cs /\
    requests_for v cs.
Proof.
  intros Hpause.
  destruct v as [| |id]; simpl;
    try (exists w, []; rewrite app_nil_r; repeat split; reflexivity).
  destruct (String.eqb_spec id EmptyString) as [->|Hne]; simpl.
  - exists w, []. rewrite app_nil_r. repeat split; reflexivity.
  - destruct (page_requests_shape api id name w)
      as (b & w' & ds & Hrun & Hc & Hlen & _).
    exists w', (page_requests id ds).
    unfold bind. rewrite Hrun, Hpause.
    split; [reflexivity|]. split; [exact Hc|].
    now apply requests_for_page.
Qed.

(** X11.  The page cleanup never throws; it makes the requests for the
    child page first and those for the test page after them, each a
    read, an unpublish and one to three deletes; an id that is not set
    is skipped, and a child that could not be deleted does not stop
    the attempt on the test page. *)
Theorem child_page_is_deleted_first (childPageId testPageId : Js.value)
    (w : World Store) :
  exists w' cs1 cs2,
    delete_test_pages api childPageId testPageId w = (Normal tt, w') /\
    invoked w w' = cs1 ++ cs2 /\
    requests_for childPageId cs1 /\
    requests_for testPageId cs2.
Proof.
  unfold delete_test_pages.
  destruct (delete_if_set childPageId "child page" (wait 500) w)
    as (w1 & cs1 & Hrun1 & Hc1 & Hr1); [reflexivity|].
  destruct (delete_if_set testPageId "test page" (ret tt) w1)
    as (w' & cs2 & Hrun2 & Hc2 & Hr2); [reflexivity|].
  exists w', cs1, cs2.
  unfold bind at 1. rewrite Hrun1, Hrun2.
  split; [reflexivity|]. split; [|auto].
  apply invoked_app. rewrite Hc2, Hc1, app_assoc. reflexivity.
Qed.

End PageCleanupRuns.

(** ** Test 5 of the media script *)

Section PickSize.

Lemma find_first {A} (p : A -> bool) (l : list A) (x : A) :
  find p l = Some x ->
  exists pre post,
    l = pre ++ x :: post /\ p x = true /\
    forall q, In q pre -> p q = false.
Proof.
  induction l as [|a l IH]; simpl; [discriminate|].
  destruct (p a) eqn:Ha.
  - intros H. injection H as <-. exists [], l. simpl. tauto.
  - intros H. destruct (IH H) as (pre & post & -> & Hx & Hpre).
    exists (a :: pre), post. simpl. repeat split; auto.
    intros q [<- | Hq]; auto.
Qed.

Lemma array_includes_In (array : list string) (s : string) :
  array_includes array s = true <-> In s array.
Proof. apply Set_has_In. Qed.

Lemma array_includes_not_In (array : list string) (s : string) :
  array_includes array s = false -> ~ In s array.
Proof.
  intros H Hin. apply array_includes_In in Hin. congruence.
Qed.

(** X12.  The size Test 5 picks is always one of the sizes the image
    has: the first name of the preferred order that is among them (no
    name before it in that order is available), and the first size of
    the image when none of the preferred names is. *)
Theorem picked_size_is_available (sizes : list string) :
  sizes <> [] ->
  exists p,
    pick_size sizes = Js.VStr p /\
    In p sizes /\
    ((exists pre post,
        preferredOrder = pre ++ p :: post /\
        forall q, In q pre -> ~ In q sizes)
     \/
     ((forall q, In q preferredOrder -> ~ In q sizes) /\
      hd_error sizes = Some p)).
Proof.
  intros Hne. unfold pick_size, array_find.
  destruct (find (fun s => array_includes sizes s) preferredOrder)
    as [x|] eqn:Hfind.
  - destruct (find_first _ _ _ Hfind) as (pre & post & Hsplit & Hx & Hpre).
    assert (Htruthy : Js.truthy (Js.VStr x) = true).
    { apply find_some in Hfind. destruct Hfind as [Hin _].
      simpl in Hin.
      repeat (destruct Hin as [<- | Hin]; [reflexivity|]).
      contradiction. }
    exists x. unfold Js.or. rewrite Htruthy.
    split; [reflexivity|]. split; [now apply array_includes_In|].
    left. exists pre, post. split; [exact Hsplit|].
    intros q Hq. apply array_includes_not_In. now apply Hpre.
  - destruct sizes as [|s0 sizes]; [now elim Hne|].
    exists s0. split; [reflexivity|]. split; [now left|].
    right. split; [|reflexivity].
    intros q Hq. apply array_includes_not_In.
    exact (find_none _ _ Hfind q Hq).
Qed.

End PickSize.

Ltac run_session :=
  cbv beta delta [bind try_catch ret throw wait note report_test
                  await_request] ; simpl.

Section ImageSrcRuns.

Context {Store : Type}.
Variable mediaApi : MediaReads Store.
Variable error_location : Error -> Js.value.

Lemma asks_nothing (w : World (Session Store)) :
  asks w w [] (remote (store w)).
Proof.
  unfold asks. rewrite !app_nil_r. repeat split; auto.
  exists []. now rewrite app_nil_r.
Qed.

Lemma asks_then (w w1 w2 : World (Session Store)) qs1 qs2 s1 s2 :
  asks w w1 qs1 s1 -> asks w1 w2 qs2 s2 -> asks w w2 (qs1 ++ qs2) s2.
Proof.
  intros (Hc1 & Ho1 & Ha1 & Hr1 & ns1 & Hn1)
         (Hc2 & Ho2 & Ha2 & Hr2 & ns2 & Hn2).
  unfold asks. repeat split; try congruence.
  - rewrite Ha2, Ha1. now rewrite app_assoc.
  - exists (ns1 ++ ns2). rewrite Hn2, Hn1. now rewrite app_assoc.
Qed.

Lemma note_run (n : Note) (w : World (Session Store)) :
  exists w', note n w = (Normal tt, w') /\
             asks w w' [] (remote (store w)) /\
             report (store w') = report (store w) ++ [n].
Proof.
  eexists. split; [reflexivity|]. unfold asks. simpl.
  rewrite app_nil_r. repeat split; eauto.
Qed.

Lemma report_test_run name ok details (w : World (Session Store)) :
  exists w', report_test name ok details w = (Normal tt, w') /\
             asks w w' [] (remote (store w)) /\
             exists ns, report (store w') = report (store w) ++ ns /\
                        hd_error ns = Some (Result name ok).
Proof.
  run_session.
  destruct (media_details_truthy details); simpl;
    (eexists; split; [reflexivity|]); unfold asks; simpl;
    rewrite ?app_nil_r, <- ?app_assoc; repeat split; eauto.
Qed.

(** One size: one request, one line, and [okCount] goes up exactly
    when the response is one that counts. *)
Lemma check_size_run (aposDocId : Js.value) (size : string) (okCount : nat)
    (w : World (Session Store)) :
  let answer := src_of mediaApi aposDocId size (remote (store w)) in
  exists w' n,
    check_size mediaApi aposDocId size okCount w
    = (Normal (if served (fst answer) then S okCount else okCount), w') /\
    calls w' = calls w /\
    console w' = console w /\
    asked (store w') = asked (store w) ++ [AskedSrc aposDocId (Js.VStr size)] /\
    remote (store w') = snd answer /\
    report (store w') = report (store w) ++ [n].
Proof.
  unfold check_size, src_of, served. run_session.
  destruct (imageGetSrcById mediaApi aposDocId (Js.VStr size)
              (remote (store w))) as [[st d|e] s']; simpl.
  - destruct (st =? 302)%Z; simpl;
      [|destruct (st =? 200)%Z; simpl;
        [destruct (is_image (header_content_type d)); simpl;
         [|destruct (data_is_string d); simpl]|]].
    all: do 2 eexists; repeat split; reflexivity.
  - destruct (status_is e 404); simpl; [|destruct (status_is e 302); simpl].
    all: do 2 eexists; repeat split; reflexivity.
Qed.

Lemma filter_length_bound {A} (p : A -> bool) (l : list A) :
  length (filter p l) <= length l.
Proof. apply filter_length_le. Qed.

(** The loop of part B asks for every size, in order, whatever the
    answers, and counts the responses that are served. *)
Lemma size_loop_run (aposDocId : Js.value) (sizes : list string)
    (okCount : nat) (w : World (Session Store)) :
  let answers := responses (src_of mediaApi aposDocId) sizes
                   (remote (store w)) in
  exists w' ns,
    for_of_with sizes (check_size mediaApi aposDocId) okCount w
    = (Normal (okCount + length (filter served answers)), w') /\
    calls w' = calls w /\
    console w' = console w /\
    asked (store w') = asked (store w) ++ size_requests aposDocId sizes /\
    report (store w') = report (store w) ++ ns /\
    length ns = length sizes.
Proof.
  revert okCount w. induction sizes as [|size sizes IH]; intros okCount w.
  - exists w, []. simpl. rewrite !app_nil_r, Nat.add_0_r.
    repeat split; reflexivity.
  - destruct (check_size_run aposDocId size okCount w)
      as (w1 & n & Hrun & Hc & Ho & Ha & Hr & Hn).
    cbn [for_of_with]. unfold bind at 1. rewrite Hrun.
    destruct (IH (if served (fst (src_of mediaApi aposDocId size
                                     (remote (store w))))
                  then S okCount else okCount) w1)
      as (w' & ns & Hloop & Hc' & Ho' & Ha' & Hn' & Hlen).
    exists w', (n :: ns). rewrite Hloop.
    cbn [responses size_requests map]. rewrite Hr in *.
    destruct (src_of mediaApi aposDocId size (remote (store w)))
      as [r s'] eqn:Hans. simpl fst in *. simpl snd in *.
    split.
    { f_equal. f_equal. cbn [filter].
      destruct (served r); simpl; lia. }
    split; [congruence|]. split; [congruence|]. split.
    { rewrite Ha', Ha, <- app_assoc. reflexivity. }
    split.
    { rewrite Hn', Hn, <- app_assoc. reflexivity. }
    simpl. now rewrite Hlen.
Qed.

(** X13.  Part B of Test 5 asks for every size of the image exactly
    once, in the order of the sizes and whatever the answers (a failure
    on one size does not stop the loop); it prints one line per size;
    its count is the number of answers that were a redirect (resolved
    or thrown), an image or a url string, and the test passes exactly
    when the count is positive. *)
Theorem every_size_is_checked (aposDocId : Js.value) (sizes : list string)
    (w : World (Session Store)) :
  let answers := responses (src_of mediaApi aposDocId) sizes
                   (remote (store w)) in
  let okCount := length (filter served answers) in
  exists w' ns,
    check_all_sizes mediaApi aposDocId sizes w = (Normal tt, w') /\
    asked (store w') = asked (store w) ++ size_requests aposDocId sizes /\
    report (store w')
    = report (store w) ++ ns
      ++ [ Result GetImageSrcAllSizes (existsb served answers);
           ResultDetails (SuccessCount okCount (length sizes)) ] /\
    length ns = length sizes /\
    okCount <= length sizes.
Proof.
  intros answers okCount.
  destruct (size_loop_run aposDocId sizes 0 w)
    as (w1 & ns & Hloop & _ & _ & Ha & Hn & Hlen).
  fold answers in Hloop. simpl in Hloop. fold okCount in Hloop.
  assert (Hpass : (0 <? okCount)%nat = existsb served answers).
  { unfold okCount. clear. induction answers as [|r rs IH]; simpl;
      [reflexivity|].
    destruct (served r); simpl; [reflexivity | exact IH]. }
  unfold check_all_sizes, bind at 1. rewrite Hloop.
  run_session. rewrite Hpass.
  eexists. exists ns. split; [reflexivity|]. simpl.
  split; [exact Ha|]. split.
  { rewrite Hn, <- !app_assoc. reflexivity. }
  split; [exact Hlen|].
  unfold okCount, answers.
  etransitivity; [apply filter_length_bound|].
  now rewrite responses_length.
Qed.

Lemma asks_note (n : Note) (w : World (Session Store)) :
  exists w', note n w = (Normal tt, w') /\ asks w w' [] (remote (store w)).
Proof. destruct (note_run n w) as (w' & H & Ha & _). eauto. Qed.

Lemma asks_report_test name ok details (w : World (Session Store)) :
  exists w', report_test name ok details w = (Normal tt, w') /\
             asks w w' [] (remote (store w)).
Proof.
  destruct (report_test_run name ok details w) as (w' & H & Ha & _). eauto.
Qed.

(** The [catch] block only prints. *)
Lemma test5_catch_run (e : Error) (w : World (Session Store)) :
  exists w', test5_catch error_location e w = (Normal tt, w') /\
             asks w w' [] (remote (store w)).
Proof.
  unfold test5_catch.
  destruct (status_is e 404); [|destruct (status_is e 302)];
    apply asks_report_test.
Qed.

(** Part A asks for the picked size; it ends normally when the request
    resolved, whatever the status, and throws when it was rejected. *)
Lemma check_preferred_run (aposDocId pick : Js.value)
    (w : World (Session Store)) :
  let answer := imageGetSrcById mediaApi aposDocId pick (remote (store w)) in
  exists c w',
    check_preferred mediaApi aposDocId pick w = (c, w') /\
    asks w w' [AskedSrc aposDocId pick] (snd answer) /\
    c = match fst answer with
        | Resolved _ _ => Normal tt
        | Rejected e => Throw e
        end.
Proof.
  unfold check_preferred. run_session.
  destruct (imageGetSrcById mediaApi aposDocId pick (remote (store w)))
    as [[st d|e] s']; simpl.
  - destruct (st =? 302)%Z; simpl;
      [|destruct (st =? 200)%Z; simpl;
        [destruct (is_image (header_content_type d)); simpl;
         [|destruct (data_is_string d); simpl]|]].
    all: do 2 eexists; split; [reflexivity|]; split; [|reflexivity].
    all: unfold asks; simpl; rewrite <- ?app_assoc; repeat split; eauto.
  - do 2 eexists. split; [reflexivity|]. split; [|reflexivity].
    unfold asks. simpl. repeat split; auto.
    exists []. now rewrite app_nil_r.
Qed.

Lemma check_all_sizes_run (aposDocId : Js.value) (sizes : list string)
    (w : World (Session Store)) :
  exists w' s',
    check_all_sizes mediaApi aposDocId sizes w = (Normal tt, w') /\
    asks w w' (size_requests aposDocId sizes) s'.
Proof.
  destruct (size_loop_run aposDocId sizes 0 w)
    as (w1 & ns & Hloop & Hc & Ho & Ha & Hn & _).
  unfold check_all_sizes, bind at 1. rewrite Hloop.
  destruct (asks_report_test GetImageSrcAllSizes
              (0 <? 0 + length (filter served
                       (responses (src_of mediaApi aposDocId) sizes
                          (remote (store w)))))%nat
              (SuccessCount
                 (0 + length (filter served
                       (responses (src_of mediaApi aposDocId) sizes
                          (remote (store w)))))
                 (length sizes)) w1) as (w' & Hrun & Hasks).
  exists w', (remote (store w1)). split; [exact Hrun|].
  apply (asks_then w w1 w' (size_requests aposDocId sizes) []
           (remote (store w1)) (remote (store w1))) in Hasks.
  - now rewrite app_nil_r in Hasks.
  - unfold asks. repeat split; eauto.
Qed.

(** Every run of Test 5: it ends normally, and its requests are the
    image read followed by the rendition requests. *)
Lemma test5_run (imageId imageAposDocId : Js.value)
    (w : World (Session Store)) :
  exists w' s',
    test5 mediaApi error_location imageId imageAposDocId w
    = (Normal tt, w') /\
    asks w w'
      (AskedImage imageId
       :: src_requests mediaApi imageId imageAposDocId (remote (store w)))
      s'.
Proof.
  assert (Htry : forall w0 : World (Session Store),
             exists w1 s1,
               try_catch (test5_try mediaApi imageId imageAposDocId)
                         (test5_catch error_location) w0 = (Normal tt, w1) /\
               asks w0 w1
                 (AskedImage imageId
                  :: src_requests mediaApi imageId imageAposDocId
                       (remote (store w0))) s1).
  { intros w0. unfold try_catch, test5_try, src_requests.
    unfold bind at 1. unfold await_request at 1.
    destruct (imageGetById mediaApi imageId (remote (store w0)))
      as [r0 s0] eqn:Hread; cbn [fst snd].
    set (wa := mkWorld (mkSession s0 (asked (store w0) ++ [AskedImage imageId])
                          (report (store w0))) (calls w0) (console w0)).
    assert (Hwa : asks w0 wa [AskedImage imageId] s0).
    { unfold asks. simpl. repeat split; auto.
      exists []. now rewrite app_nil_r. }
    assert (Hthrown : forall e,
               exists w1 s1,
                 test5_catch error_location e wa = (Normal tt, w1) /\
                 asks w0 w1 [AskedImage imageId] s1).
    { intros e. destruct (test5_catch_run e wa) as (w1 & Hc & Ha).
      exists w1, s0. split; [exact Hc|].
      exact (asks_then w0 wa w1 [AskedImage imageId] [] s0 s0 Hwa Ha). }
    destruct r0 as [st imgData|e]; cbn [read_data]; [|apply Hthrown].
    cbn [fst snd].
    assert (Hrest : forall (data : option ImageData) aposDocId,
               exists w1 s1,
                 try_catch
                   (if (length (sizes_of data) =? 0)%nat
                    then report_test GetImageSrc false NoRenditionSizes
                    else
                      check_preferred mediaApi aposDocId
                        (pick_size (sizes_of data)) ;;
                      check_all_sizes mediaApi aposDocId (sizes_of data))
                   (test5_catch error_location) wa = (Normal tt, w1) /\
                 asks w0 w1
                   (AskedImage imageId
                    :: match sizes_of data with
                       | [] => []
                       | _ :: _ =>
                           AskedSrc aposDocId (pick_size (sizes_of data))
                           :: match fst (imageGetSrcById mediaApi aposDocId
                                           (pick_size (sizes_of data)) s0) with
                              | Resolved _ _ =>
                                  size_requests aposDocId (sizes_of data)
                              | Rejected _ => []
                              end
                       end) s1).
    { intros data aposDocId. unfold try_catch.
      destruct (sizes_of data) as [|size0 sizes] eqn:Hsizes; cbn [length Nat.eqb].
      - destruct (asks_report_test GetImageSrc false NoRenditionSizes wa)
          as (w1 & Hr & Ha).
        exists w1, s0. rewrite Hr. split; [reflexivity|].
        exact (asks_then w0 wa w1 [AskedImage imageId] [] s0 s0 Hwa Ha).
      - destruct (check_preferred_run aposDocId (pick_size (size0 :: sizes)) wa)
          as (c & w2 & Hp & Ha2 & Hc).
        change (remote (store wa)) with s0 in Ha2, Hc.
        unfold bind at 1. rewrite Hp.
        destruct (imageGetSrcById mediaApi aposDocId
                    (pick_size (size0 :: sizes)) s0) as [[st2 d2|e2] s2];
          cbn [fst snd] in *; subst c.
        + destruct (check_all_sizes_run aposDocId (size0 :: sizes) w2)
            as (w3 & s3 & Hall & Ha3).
          rewrite Hall. exists w3, s3. split; [reflexivity|].
          apply (asks_then w0 wa w3 [AskedImage imageId] _ s0 s3 Hwa).
          exact (asks_then wa w2 w3 [AskedSrc aposDocId _] _ s2 s3 Ha2 Ha3).
        + destruct (test5_catch_run e2 w2) as (w3 & Hcatch & Ha3).
          replace (remote (store w2)) with s2 in Ha3
            by (destruct Ha2 as (_ & _ & _ & H & _); now rewrite H).
          exists w3, s2. split; [exact Hcatch|].
          apply (asks_then w0 wa w3 [AskedImage imageId] _ s0 s2 Hwa).
          exact (asks_then wa w2 w3 [AskedSrc aposDocId _] [] s2 s2 Ha2 Ha3). }
    unfold src_aposDocId in *.
    destruct imgData as [n|d]; cbn [object_of];
      destruct (Js.truthy imageAposDocId) eqn:Ht.
    - apply (Hrest None imageAposDocId).
    - apply Hthrown.
    - apply (Hrest (Some d) imageAposDocId).
    - apply (Hrest (Some d) (Js.or (image_aposDocId d) (image_id d))). }
  unfold test5.
  destruct (asks_note Test5Heading w) as (w0 & Hn & Ha0).
  destruct (Htry w0) as (w1 & s1 & Hrun & Ha1).
  assert (Hsame : remote (store w0) = remote (store w))
    by (destruct Ha0 as (_ & _ & _ & H & _); exact H).
  rewrite Hsame in Ha1.
  exists w1, s1. unfold bind at 1. rewrite Hn.
  unfold bind at 1. rewrite Hrun. split; [reflexivity|].
  exact (asks_then w w0 w1 [] _ _ s1 Ha0 Ha1).
Qed.

(** X14.  Test 5 never throws, whatever the client answers and also
    when the image read returns no data; its first request is the image
    read, and it leaves the calls and the console of the cleanup
    helpers alone. *)
Theorem test5_always_completes (imageId imageAposDocId : Js.value)
    (w : World (Session Store)) :
  exists w' qs,
    test5 mediaApi error_location imageId imageAposDocId w
    = (Normal tt, w') /\
    asked (store w') = asked (store w) ++ AskedImage imageId :: qs /\
    calls w' = calls w /\
    console w' = console w.
Proof.
  destruct (test5_run imageId imageAposDocId w)
    as (w' & s' & Hrun & Hc & Ho & Ha & _).
  exists w'. eexists. split; [exact Hrun|]. split; [exact Ha|]. auto.
Qed.

(** X15.  When the image read is rejected, returns no data, or returns
    an image without rendition sizes, Test 5 requests no rendition at
    all: the image read is its only request. *)
Theorem no_sizes_no_rendition_request (imageId imageAposDocId : Js.value)
    (w : World (Session Store)) :
  sizes_of (read_data (fst (imageGetById mediaApi imageId
                              (remote (store w))))) = [] ->
  exists w',
    test5 mediaApi error_location imageId imageAposDocId w
    = (Normal tt, w') /\
    asked (store w') = asked (store w) ++ [AskedImage imageId].
Proof.
  intros Hsizes.
  destruct (test5_run imageId imageAposDocId w)
    as (w' & s' & Hrun & _ & _ & Ha & _).
  exists w'. split; [exact Hrun|].
  unfold src_requests in Ha. rewrite Hsizes in Ha. exact Ha.
Qed.

(** X16.  When the image has rendition sizes, Test 5 requests the
    picked size first; if that request resolves, whatever its status,
    every size is requested after it, in order; if it is rejected, the
    check of all sizes is skipped. *)
Theorem renditions_follow_the_picked_size
    (imageId imageAposDocId : Js.value) (w : World (Session Store)) :
  let read := imageGetById mediaApi imageId (remote (store w)) in
  let imgData := read_data (fst read) in
  let sizes := sizes_of imgData in
  let aposDocId := src_aposDocId imageAposDocId imgData in
  sizes <> [] ->
  exists w',
    test5 mediaApi error_location imageId imageAposDocId w
    = (Normal tt, w') /\
    asked (store w')
    = asked (store w)
      ++ AskedImage imageId
      :: AskedSrc aposDocId (pick_size sizes)
      :: match fst (imageGetSrcById mediaApi aposDocId (pick_size sizes)
                      (snd read)) with
         | Resolved _ _ => size_requests aposDocId sizes
         | Rejected _ => []
         end.
Proof.
  intros read imgData sizes aposDocId Hsizes.
  destruct (test5_run imageId imageAposDocId w)
    as (w' & s' & Hrun & _ & _ & Ha & _).
  exists w'. split; [exact Hrun|].
  unfold src_requests in Ha.
  fold read in Ha. fold imgData in Ha. fold sizes in Ha.
  fold aposDocId in Ha.
  destruct sizes as [|size0 rest]; [now elim Hsizes | exact Ha].
Qed.

(** X20.  With a truthy [state.imageAposDocId], every rendition
    request of Test 5 is made on that id, whatever the image read
    returns; the ids in the data of the read are not used. *)
Theorem renditions_use_the_captured_id
    (imageId imageAposDocId : Js.value) (w : World (Session Store)) :
  Js.truthy imageAposDocId = true ->
  exists w' sizes,
    test5 mediaApi error_location imageId imageAposDocId w
    = (Normal tt, w') /\
    asked (store w')
    = asked (store w)
      ++ AskedImage imageId :: map (AskedSrc imageAposDocId) sizes.
Proof.
  intros Htruthy.
  destruct (test5_run imageId imageAposDocId w)
    as (w' & s' & Hrun & _ & _ & Ha & _).
  exists w'. unfold src_requests, src_aposDocId in Ha.
  rewrite Htruthy in Ha.
  destruct (sizes_of _) as [|size0 rest] eqn:Hsizes in Ha.
  - exists []. auto.
  - destruct (fst (imageGetSrcById _ _ _ _)) in Ha.
    + exists (pick_size (size0 :: rest) :: map Js.VStr (size0 :: rest)).
      split; [exact Hrun|]. rewrite Ha. unfold size_requests.
      cbn [map]. now rewrite (map_map Js.VStr (AskedSrc imageAposDocId)).
    + exists [pick_size (size0 :: rest)]. auto.
Qed.

End ImageSrcRuns.

(** ** The tests that write to [state] *)

Section StateRuns.

Context {Store : Type}.
Variable mediaPosts : MediaPosts Store.
Variable mediaApi : MediaReads Store.

Lemma ids_truthy_push (created : list Created) (it : Created) :
  ids_truthy created -> Js.truthy (id it) = true ->
  ids_truthy (created ++ [it]).
Proof.
  intros Hall Hit. apply Forall_app. split; [exact Hall|].
  constructor; [exact Hit | constructor].
Qed.

Lemma records_ids_truthy (k : Kind) (answer : Settled (option Doc))
    (state state' : State) :
  records k answer state state' ->
  ids_truthy (state_created state) -> ids_truthy (state_created state').
Proof.
  unfold records. intros Hrec Hall.
  destruct answer as [st [data|]|e]; try (now subst state').
  destruct (st =? 200)%Z; simpl in Hrec; [|now subst state'].
  destruct (Js.truthy (doc_id data)) eqn:Hid; [|now subst state'].
  destruct Hrec as (Hcreated & _). rewrite Hcreated.
  now apply ids_truthy_push.
Qed.

Ltac creating_run post :=
  cbv zeta; unfold post_of; run_session;
  match goal with
  | w : World (Session Store) |- _ =>
      destruct (post mediaPosts (remote (store w)))
        as [[st [[[| |_id] data_aposDocId [| |slug]]|]|e] s1]
  end; simpl;
  repeat match goal with
  | |- context [(?z =? 200)%Z] => destruct (z =? 200)%Z; simpl
  | |- context [(?s =? EmptyString)%string] =>
      destruct (s =? EmptyString)%string eqn:?; simpl
  end;
  (do 2 eexists; split; [reflexivity|]; split;
   [ unfold asks; simpl; rewrite <- ?app_assoc;
     repeat split; eauto
   | first [ reflexivity
           | repeat split; intros [| | |]; simpl; congruence ] ]).

Lemma test1_run (state : State) (w : World (Session Store)) :
  let answer := post_of mediaPosts image (remote (store w)) in
  exists state' w',
    test1 mediaPosts state w = (Normal state', w') /\
    asks w w' [AskedPost image] (snd answer) /\
    records image (fst answer) state state'.
Proof. unfold test1. creating_run (@imagePost Store). Qed.

Lemma test6_run (state : State) (w : World (Session Store)) :
  let answer := post_of mediaPosts file (remote (store w)) in
  exists state' w',
    test6 mediaPosts state w = (Normal state', w') /\
    asks w w' [AskedPost file] (snd answer) /\
    records file (fst answer) state state'.
Proof. unfold test6. creating_run (@filePost Store). Qed.

Lemma test9_run (state : State) (w : World (Session Store)) :
  let answer := post_of mediaPosts imageTag (remote (store w)) in
  exists state' w',
    test9 mediaPosts state w = (Normal state', w') /\
    asks w w' [AskedPost imageTag] (snd answer) /\
    records imageTag (fst answer) state state'.
Proof. unfold test9. creating_run (@imageTagPost Store). Qed.

Lemma test10_run (state : State) (w : World (Session Store)) :
  let answer := post_of mediaPosts fileTag (remote (store w)) in
  exists state' w',
    test10 mediaPosts state w = (Normal state', w') /\
    asks w w' [AskedPost fileTag] (snd answer) /\
    records fileTag (fst answer) state state'.
Proof. unfold test10. creating_run (@fileTagPost Store). Qed.

(** X17.  Each of the four creating tests (1, 6, 9 and 10) ends
    normally whatever its post answers, and makes that one request.
    When the post resolved with status 200 and data whose [_id] is
    truthy, the test pushes one item of its type to [state.created],
    with the [_id] and the [aposDocId] of that very data, and assigns
    the [_id] to its field of [state]; for any other answer it leaves
    [state] as it was.  So the ids in [state.created] stay truthy. *)
Theorem creating_tests_record_truthy_ids
    (k : Kind) (t : State -> M (Session Store) State)
    (state : State) (w : World (Session Store)) :
  In (k, t) (creating_tests mediaPosts) ->
  let answer := post_of mediaPosts k (remote (store w)) in
  exists state' w',
    t state w = (Normal state', w') /\
    asks w w' [AskedPost k] (snd answer) /\
    records k (fst answer) state state' /\
    (ids_truthy (state_created state) ->
     ids_truthy (state_created state')).
Proof.
  intros Hin answer.
  assert (exists state' w',
             t state w = (Normal state', w') /\
             asks w w' [AskedPost k] (snd answer) /\
             records k (fst answer) state state')
    as (state' & w' & Hrun & Hasks & Hrec).
  { subst answer. simpl in Hin.
    destruct Hin as [H | [H | [H | [H | []]]]]; injection H as <- <-.
    - apply test1_run.
    - apply test6_run.
    - apply test9_run.
    - apply test10_run. }
  exists state', w'.
  split; [exact Hrun|]. split; [exact Hasks|]. split; [exact Hrec|].
  exact (records_ids_truthy k (fst answer) state state' Hrec).
Qed.

Lemma strict_eq_eq (a b : Js.value) : strict_eq a b = true -> a = b.
Proof.
  destruct a, b; simpl; try discriminate; auto.
  intros H. apply String.eqb_eq in H. now subst.
Qed.

Lemma or_truthy (a b : Js.value) :
  Js.truthy b = true -> Js.truthy (Js.or a b) = true.
Proof.
  intros Hb. unfold Js.or. destruct (Js.truthy a) eqn:Ha; auto.
Qed.

Local Opaque strict_eq.

(** X19.  Test 3 ends normally whatever the read answers, makes that
    one request, on [state.imageId], and touches no field of [state]
    but [imageAposDocId]; it assigns that field only when the read
    resolved with status 200 and data whose [_id] is [state.imageId],
    and then to the [aposDocId] of the data or else its [_id]: with a
    truthy [state.imageId] the value assigned is truthy. *)
Theorem test3_captures_the_aposDocId (state : State)
    (w : World (Session Store)) :
  let read := imageGetById mediaApi (state_imageId state)
                (remote (store w)) in
  exists state' w',
    test3 mediaApi state w = (Normal state', w') /\
    asks w w' [AskedImage (state_imageId state)] (snd read) /\
    state_created state' = state_created state /\
    (forall k, id_field k state' = id_field k state) /\
    (state' = state \/
     exists data,
       fst read = Resolved 200 (Object data) /\
       image_id data = state_imageId state /\
       state' = set_imageAposDocId
                  (Js.or (image_aposDocId data) (image_id data)) state /\
       (Js.truthy (state_imageId state) = true ->
        Js.truthy (state_imageAposDocId state') = true)).
Proof.
  intros read. subst read. unfold test3. run_session.
  destruct (imageGetById mediaApi (state_imageId state) (remote (store w)))
    as [[st [[|]|data]|e] s1]; simpl.
  all: repeat match goal with
       | |- context [(?z =? 200)%Z] =>
           destruct (Z.eqb_spec z 200); simpl
       | |- context [strict_eq ?a ?b] =>
           destruct (strict_eq a b) eqn:?; simpl
       | |- context [(?s =? EmptyString)%string] =>
           destruct (s =? EmptyString)%string; simpl
       end.
  all: do 2 eexists; split; [reflexivity|]; split;
       [ unfold asks; simpl; rewrite <- ?app_assoc; repeat split; eauto |].
  all: simpl; split; [reflexivity|]; split; [intros [| | |]; reflexivity|].
  all: try (left; reflexivity).
  right. exists data.
  match goal with H : strict_eq _ _ = true |- _ =>
    apply strict_eq_eq in H; rename H into Hid end.
  subst st. repeat split; auto.
  intros Htruthy. simpl. apply or_truthy. now rewrite Hid.
Qed.

End StateRuns.

(** ** The cleanup of the items the tests recorded *)

Section RecordedItems.

Context {Store : Type}.
Variable mediaApi : MediaApi Store.

Lemma truthy_is_known (v : Js.value) :
  Js.truthy v = true -> exists s, known v = Some s /\ v = Js.VStr s.
Proof.
  intros Hv. destruct (known v) as [s|] eqn:Hk.
  - exists s. split; [reflexivity|]. now apply known_truthy in Hk.
  - apply known_None in Hk. congruence.
Qed.

Lemma itemId_truthy (it : Created) :
  Js.truthy (id it) = true -> Js.truthy (itemId_of it) = true.
Proof.
  unfold itemId_of, Js.or. intros Hid.
  destruct (Js.truthy (aposDocId it)) eqn:Ha; auto.
Qed.

Lemma retires_truthy (it : Created) (cs : list Call) :
  Js.truthy (id it) = true ->
  retires it cs ->
  exists ds,
    cs = (Unpublish, itemId_of it) :: map (pair Delete) ds /\
    1 <= length ds.
Proof.
  intros Hid. unfold retires.
  destruct (truthy_is_known _ (itemId_truthy it Hid)) as (s & -> & ->).
  intros (n & Hn & ->).
  exists (map Js.VStr (firstn n (candidates s))). split.
  - unfold on. now rewrite map_map.
  - rewrite length_map, length_firstn. lia.
Qed.

(** X18.  When every created item has a truthy [id], as the creating
    tests leave [state.created], the cleanup skips none of them: its
    requests split into one block per item, from the item created last
    to the one created first, and the block of an item is exactly one
    unpublish on [aposDocId || id] followed by at least one delete. *)
Theorem recorded_items_are_attempted (created : list Created)
    (w : World Store) :
  ids_truthy created ->
  exists w' blocks,
    cleanup mediaApi created w = (Normal tt, w') /\
    invoked w w' = concat blocks /\
    Forall2 (fun it cs =>
               exists ds,
                 cs = (Unpublish, itemId_of it) :: map (pair Delete) ds /\
                 1 <= length ds)
            (rev created) blocks.
Proof.
  intros Hall. unfold cleanup.
  destruct (cleanup_blocks mediaApi (rev created) w)
    as (w' & blocks & Hrun & Hc & Hblocks).
  exists w', blocks. split; [exact Hrun|].
  split; [exact (invoked_app _ _ _ Hc)|].
  apply Forall2_impl with (P := retires); [|exact Hblocks].
  intros it cs Hin. apply retires_truthy.
  apply in_rev in Hin. unfold ids_truthy in Hall.
  rewrite Forall_forall in Hall. now apply Hall.
Qed.

End RecordedItems.

(** ** The further properties at concrete inputs *)

Lemma draft_rewrite_changes_marked_ids_witness :
  String.length (Js.replace published_marker draft_marker "abc:en:published")
  + 4 = String.length "abc:en:published".
Proof.
  destruct (draft_rewrite_changes_marked_ids "abc:en:published") as [_ H].
  apply H. reflexivity.
Defined.

Lemma candidates_of_published_id_witness :
  candidates "abc:en:published" = ["abc:en:published"; "abc:en:draft"; "abc"].
Proof.
  apply (candidates_of_published_id "abc"). reflexivity.
Defined.

Lemma delete_attempts_are_bounded_witness :
  exists b w',
    safeDeleteDocument (Js.VStr "q:en:published") file refusing_delete
      (Some (rejects 404)) (fresh tt) = (Normal (Some b), w') /\
    length (deletes (invoked (fresh tt) w')) <= 3.
Proof.
  destruct (delete_attempts_are_bounded file refusing_delete
              (Some (rejects 404)) "q:en:published" (fresh tt))
    as (b & w' & Hrun & _ & Hlen & _).
  - discriminate.
  - exists b, w'. split; [exact Hrun | lia].
Defined.

Lemma colon_free_id_is_tried_once_witness :
  exists b w',
    safeDeleteDocument (Js.VStr "abc") image refusing_delete
      (Some (rejects 404)) (fresh tt) = (Normal (Some b), w') /\
    deletes (invoked (fresh tt) w') = [Js.VStr "abc"].
Proof.
  destruct (colon_free_id_is_tried_once image refusing_delete
              (Some (rejects 404)) "abc" (fresh tt)) as [_ H].
  - discriminate.
  - reflexivity.
  - exact H.
Defined.

Lemma result_follows_the_responses_witness :
  exists b w' n,
    safeDeleteDocument (Js.VStr "abc") image one_doc_delete
      (Some (rejects 404)) (fresh true) = (Normal (Some b), w') /\
    deletes (invoked (fresh true) w')
    = map Js.VStr (firstn n (candidates "abc")).
Proof.
  destruct (result_follows_the_responses image one_doc_delete
              (Some (rejects 404)) "abc" (fresh true))
    as (b & w' & n & Hrun & Hd & _).
  - discriminate.
  - exists b, w', n. auto.
Defined.

Lemma resolved_failure_is_final_witness :
  exists w',
    safeDeletePage pages_answering_204 "p1:en:published" "test page"
      (fresh tt) = (Normal (Some false), w') /\
    deletes (invoked (fresh tt) w') = [Js.VStr "p1"].
Proof.
  apply (resolved_failure_is_final pages_answering_204 "p1:en:published"
           "test page" (fresh tt) 204 tt tt).
  - reflexivity.
  - discriminate.
Defined.

Lemma page_success_needs_status_200_witness :
  exists c s d,
    In c [Js.VStr "p1"] /\
    one_doc_delete c s = (Resolved 200 d, false).
Proof.
  apply (page_success_needs_status_200
           (pages_of (rejects 404) (rejects 404) one_doc_delete)
           "p1" "test page" (fresh true)
           (mkWorld false
              [on GetById "p1"; on Unpublish "p1"; on Delete "p1"]
              [Attempting "test page" "p1";
               CouldNotRetrieve "Request failed";
               Unpublishing "test page";
               UnpublishFailedOrNotNeeded "Request failed";
               Deleting "test page" (Js.VStr "p1");
               TestLine (DeleteNamed "test page") true;
               DetailsLine (SuccessfullyDeleted (Js.VStr "p1"))])).
  vm_compute. reflexivity.
Defined.

Lemma picked_size_is_available_witness :
  exists p,
    pick_size ["full"; "max"; "one-third"] = Js.VStr p /\
    In p ["full"; "max"; "one-third"].
Proof.
  destruct (picked_size_is_available ["full"; "max"; "one-third"])
    as (p & Hp & Hin & _).
  - discriminate.
  - exists p. auto.
Defined.

Lemma no_sizes_no_rendition_request_witness :
  exists w',
    test5 (sample_reads (Object bare_image)) no_location
      (Js.VStr "img2:en:draft") Js.VNull (fresh_session tt)
    = (Normal tt, w') /\
    asked (store w') = [AskedImage (Js.VStr "img2:en:draft")].
Proof.
  apply (no_sizes_no_rendition_request (sample_reads (Object bare_image))
           no_location (Js.VStr "img2:en:draft") Js.VNull (fresh_session tt)).
  reflexivity.
Defined.

Lemma renditions_follow_the_picked_size_witness :
  exists w',
    test5 (sample_reads (Object sample_image)) no_location
      (Js.VStr "img1:en:draft") Js.VNull (fresh_session tt)
    = (Normal tt, w') /\
    asked (store w')
    = [ AskedImage (Js.VStr "img1:en:draft");
        AskedSrc (Js.VStr "img1") (Js.VStr "max");
        AskedSrc (Js.VStr "img1") (Js.VStr "full");
        AskedSrc (Js.VStr "img1") (Js.VStr "max");
        AskedSrc (Js.VStr "img1") (Js.VStr "one-third") ].
Proof.
  apply (renditions_follow_the_picked_size (sample_reads (Object sample_image))
           no_location (Js.VStr "img1:en:draft") Js.VNull (fresh_session tt)).
  discriminate.
Defined.

(** The same image on a client that rejects every rendition request:
    the picked size is asked once, and no other. *)
Remark rejected_pick_skips_the_sizes :
  exists w',
    test5 failing_reads no_location (Js.VStr "img1:en:draft") Js.VNull
      (fresh_session tt) = (Normal tt, w') /\
    asked (store w')
    = [ AskedImage (Js.VStr "img1:en:draft");
        AskedSrc (Js.VStr "img1") (Js.VStr "max") ] /\
    In (Result GetImageSrc false) (report (store w')).
Proof.
  eexists. split; [vm_compute; reflexivity|].
  split; [vm_compute; reflexivity|]. vm_compute. tauto.
Qed.

(** Part B on the sample image: two of the three sizes are served. *)
Remark two_of_three_sizes :
  exists w',
    check_all_sizes (sample_reads (Object sample_image)) (Js.VStr "img1")
      ["full"; "max"; "one-third"] (fresh_session tt) = (Normal tt, w') /\
    report (store w')
    = [ SizeServed "full" (Js.VStr "image/png");
        SizeRedirect "max";
        SizeNotFound "one-third";
        Result GetImageSrcAllSizes true;
        ResultDetails (SuccessCount 2 3) ].
Proof. eexists. split; vm_compute; reflexivity. Qed.

Lemma creating_tests_record_truthy_ids_witness :
  exists state' w',
    test1 sample_posts initial_state (fresh_session tt)
    = (Normal state', w') /\
    asks (fresh_session tt) w' [AskedPost image] tt /\
    records image
      (Resolved 200
         (Some {| doc_id := Js.VStr "img1:en:draft";
                  doc_aposDocId := Js.VStr "img1";
                  doc_slug := Js.VStr "sdk-test-image-1" |}))
      initial_state state' /\
    (ids_truthy (state_created initial_state) ->
     ids_truthy (state_created state')).
Proof.
  apply (creating_tests_record_truthy_ids sample_posts image
           (test1 sample_posts) initial_state (fresh_session tt)).
  simpl. auto.
Defined.

(** On the sample client Test 1 records the image under the id of the
    document, and Test 6, whose post is rejected, records nothing. *)
Remark sample_image_is_recorded :
  exists state1 w1 state6 w6,
    test1 sample_posts initial_state (fresh_session tt)
    = (Normal state1, w1) /\
    test6 sample_posts state1 w1 = (Normal state6, w6) /\
    state_imageId state6 = Js.VStr "img1:en:draft" /\
    state_fileId state6 = Js.VNull /\
    state_created state6
    = [ {| id := Js.VStr "img1:en:draft"; aposDocId := Js.VStr "img1";
           type := image |} ] /\
    asked (store w6) = [AskedPost image; AskedPost file].
Proof.
  do 4 eexists. split; [vm_compute; reflexivity|].
  split; [vm_compute; reflexivity|]. repeat split.
Qed.

Lemma recorded_items_are_attempted_witness :
  exists w' blocks,
    cleanup (media_of refusing_delete (rejects 404))
      [published_item; known_item] (fresh tt) = (Normal tt, w') /\
    invoked (fresh tt) w' = concat blocks /\
    Forall2 (fun it cs =>
               exists ds,
                 cs = (Unpublish, itemId_of it) :: map (pair Delete) ds /\
                 1 <= length ds)
            (rev [published_item; known_item]) blocks.
Proof.
  apply (recorded_items_are_attempted (media_of refusing_delete (rejects 404))
           [published_item; known_item] (fresh tt)).
  repeat constructor.
Defined.

(** The requests of that cleanup: the item created last comes first,
    with its one candidate; then the first item, with its three. *)
Remark cleanup_of_two_items :
  exists w',
    cleanup (media_of refusing_delete (rejects 404))
      [published_item; known_item] (fresh tt) = (Normal tt, w') /\
    calls w'
    = [ on Unpublish "abc"; on Delete "abc";
        on Unpublish "xyz:en:published"; on Delete "xyz:en:published";
        on Delete "xyz:en:draft"; on Delete "xyz" ].
Proof. eexists. split; vm_compute; reflexivity. Qed.

Lemma renditions_use_the_captured_id_witness :
  exists w' sizes,
    test5 (sample_reads (Object sample_image)) no_location
      (Js.VStr "img1:en:draft") (Js.VStr "captured") (fresh_session tt)
    = (Normal tt, w') /\
    asked (store w')
    = [] ++ AskedImage (Js.VStr "img1:en:draft")
         :: map (AskedSrc (Js.VStr "captured")) sizes.
Proof.
  apply (renditions_use_the_captured_id (sample_reads (Object sample_image))
           no_location (Js.VStr "img1:en:draft") (Js.VStr "captured")
           (fresh_session tt)).
  reflexivity.
Defined.

(** That run in full: the image has three sizes and its own ids, and
    all four rendition requests go to the captured id. *)
Remark captured_id_on_the_sample_image :
  exists w',
    test5 (sample_reads (Object sample_image)) no_location
      (Js.VStr "img1:en:draft") (Js.VStr "captured") (fresh_session tt)
    = (Normal tt, w') /\
    asked (store w')
    = [ AskedImage (Js.VStr "img1:en:draft");
        AskedSrc (Js.VStr "captured") (Js.VStr "max");
        AskedSrc (Js.VStr "captured") (Js.VStr "full");
        AskedSrc (Js.VStr "captured") (Js.VStr "max");
        AskedSrc (Js.VStr "captured") (Js.VStr "one-third") ].
Proof. eexists. split; vm_compute; reflexivity. Qed.
